(** * SyntheticFlatGUI: the numerical core, embedded and verified

    A shallow embedding of the image-analysis functions of
    [SyntheticFlatGUI.py] (distance metric, statistics, gradient
    correction, histograms, radial binning, profile normalisation,
    synthetic flat reconstruction, Bayer mosaic conversion).

    Conventions of the embedding.
    - Python integers are [Z].  Half-integer quantities such as
      [height / 2] or [halfheight - 0.5] are exact in binary64 and are
      computed here in [Q]; [py_int] is Python's [int()], truncation
      towards zero.
    - The distances ([math.sqrt], the quotient [dist / maxrad_this] and
      its product with [RADIAL_RESOLUTION - 1]) are computed in binary64
      with the kernel's primitive floats, as CPython does.
    - The samples held by numpy arrays belong to a type [F] with the
      operations of the class [Float64].  Two instances are given:
      [float] (binary64, the type the program runs on) and [xreal]
      (exact rationals extended with NaN), used where an algebraic
      law of the arithmetic is needed.
    - numpy arrays are lists (of lists); an index outside the array, and
      any other Python exception, is [None] in the [option] monad.
    - scipy's [sigmaclip] and the parsing of a float literal are taken
      as parameters where they occur. *)

From Stdlib Require Import ZArith QArith Qround Qabs Lia Lqa.
From Stdlib Require Import Floats.PrimFloat Floats.SpecFloat Floats.FloatOps.
From Stdlib Require Import Numbers.Cyclic.Int63.Uint63.
From stdpp Require Import base option list gmap strings sorting.

Set Default Proof Using "Type".
Local Open Scope Z_scope.

(** ** Static settings *)

Definition IGNORE_EDGE : Z := 10.
Definition IGNORE_RADII : Z := 5.
Definition RADIAL_RESOLUTION : Z := 100000.

(** ** Python and numpy primitives *)

(** [int(x)] for an exact rational [x]. *)
Definition py_int (x : Q) : Z :=
  if Qle_bool 0 x then Qfloor x else Qceiling x.

(** [int(x)] for a finite binary64 [x] (Python raises on NaN and on
    infinities; no caller below passes one). *)
Definition int_of_float (f : float) : Z :=
  match Prim2SF f with
  | S754_finite s m e =>
      let v := Z.shiftl (Z.pos m) e in if s then - v else v
  | _ => 0
  end.

(** [float(n)] for a Python integer of image size. *)
Definition float_of_Z (z : Z) : float :=
  if z <? 0 then PrimFloat.opp (PrimFloat.of_uint63 (Uint63.of_Z (- z)))
  else PrimFloat.of_uint63 (Uint63.of_Z z).

(** [range(n)] and [range(a, b)]. *)
Definition range (n : Z) : list Z := seqZ 0 n.
Definition range2 (a b : Z) : list Z := seqZ a (b - a).

(** [sorted([a, b])]. *)
Definition sorted2 (a b : Z) : Z * Z := if a <=? b then (a, b) else (b, a).

(** A numpy index into an axis of length [n]: negative indices count
    from the end, anything else out of range raises IndexError. *)
Definition np_idx (n : nat) (i : Z) : option nat :=
  if (0 <=? i) && (i <? Z.of_nat n) then Some (Z.to_nat i)
  else if (- Z.of_nat n <=? i) && (i <? 0) then Some (Z.to_nat (Z.of_nat n + i))
  else None.

Definition get1 {A} (l : list A) (i : Z) : option A :=
  k ← np_idx (length l) i; l !! k.

Definition set1 {A} (l : list A) (i : Z) (v : A) : option (list A) :=
  k ← np_idx (length l) i; Some (<[k := v]> l).

Definition get2 {A} (a : list (list A)) (i j : Z) : option A :=
  row ← get1 a i; get1 row j.

Definition set2 {A} (a : list (list A)) (i j : Z) (v : A) : option (list (list A)) :=
  row ← get1 a i; row' ← set1 row j v; set1 a i row'.

Definition get3 {A} (a : list (list (list A))) (i j c : Z) : option A :=
  px ← get2 a i j; get1 px c.

Definition set3 {A} (a : list (list (list A))) (i j c : Z) (v : A)
  : option (list (list (list A))) :=
  px ← get2 a i j; px' ← set1 px c v; set2 a i j px'.

(** [a.shape[0]], [a.shape[1]] and [a.shape[2]] of a rectangular array. *)
Definition shape0 {A} (a : list A) : Z := Z.of_nat (length a).
Definition shape1 {A} (a : list (list A)) : Z :=
  Z.of_nat (length (default [] (head a))).
Definition shape2 {A} (a : list (list (list A))) : Z :=
  Z.of_nat (length (default [] (head (default [] (head a))))).

(** A [for] loop whose body may raise. *)
Fixpoint for_each {S I} (body : I → S → option S) (l : list I) (s : S) : option S :=
  match l with
  | [] => Some s
  | x :: l' => s' ← body x s; for_each body l' s'
  end.

(** ** The sample arithmetic *)

Class Float64 (F : Type) := {
  f_of_Z : Z → F;
  f_add : F → F → F;
  f_sub : F → F → F;
  f_mul : F → F → F;
  f_div : F → F → F;
  f_ltb : F → F → bool;
  f_leb : F → F → bool;
  f_eqb : F → F → bool;
  f_nan : F;
  f_isnan : F → bool;
  f_to_Z : F → Z
}.

Declare Scope F_scope.
Delimit Scope F_scope with F.
Infix "+" := f_add : F_scope.
Infix "-" := f_sub : F_scope.
Infix "*" := f_mul : F_scope.
Infix "/" := f_div : F_scope.
Infix "<?" := f_ltb : F_scope.
Infix "<=?" := f_leb : F_scope.
Infix "==?" := f_eqb (at level 70) : F_scope.

(** binary64. *)
#[export] Instance float_Float64 : Float64 float := {
  f_of_Z := float_of_Z;
  f_add := PrimFloat.add;
  f_sub := PrimFloat.sub;
  f_mul := PrimFloat.mul;
  f_div := PrimFloat.div;
  f_ltb := PrimFloat.ltb;
  f_leb := PrimFloat.leb;
  f_eqb := PrimFloat.eqb;
  f_nan := PrimFloat.nan;
  f_isnan := PrimFloat.is_nan;
  f_to_Z := int_of_float
}.

(** Exact rationals with NaN ([None]); a division by zero is NaN. *)
Definition xreal : Type := option Q.

Definition xlift2 (op : Q → Q → Q) (x y : xreal) : xreal :=
  a ← x; b ← y; Some (op a b).

Definition xdiv (x y : xreal) : xreal :=
  a ← x; b ← y; if Qeq_bool b 0 then None else Some (a / b)%Q.

Definition xcmp (op : Q → Q → bool) (x y : xreal) : bool :=
  match x, y with
  | Some a, Some b => op a b
  | _, _ => false
  end.

Definition Qlt_bool (a b : Q) : bool := negb (Qle_bool b a).

#[export] Instance xreal_Float64 : Float64 xreal := {
  f_of_Z := fun z => Some (inject_Z z);
  f_add := xlift2 Qplus;
  f_sub := xlift2 Qminus;
  f_mul := xlift2 Qmult;
  f_div := xdiv;
  f_ltb := xcmp Qlt_bool;
  f_leb := xcmp Qle_bool;
  f_eqb := xcmp Qeq_bool;
  f_nan := None;
  f_isnan := fun x => match x with None => true | Some _ => false end;
  f_to_Z := fun x => match x with Some q => py_int q | None => 0 end
}.

(** ** DistanceMetric *)

(** [math.pow(d, 2)]: exact in binary64 for every offset of an image,
    hence equal to the correctly rounded product. *)
Definition math_pow2 (d : Z) : float :=
  PrimFloat.mul (float_of_Z d) (float_of_Z d).

(** [cached_dist]: the [lru_cache] memoises a pure function and is
    transparent. *)
Definition cached_dist (dx dy : Z) : float :=
  PrimFloat.sqrt (PrimFloat.add (math_pow2 dx) (math_pow2 dy)).

(** The two axis offsets [abs(i - height / 2)] and [abs(j - width / 2)]. *)
Definition axis_offset (i size : Z) : Q :=
  Qabs (inject_Z i - inject_Z size / 2).

Definition dist_from_center (i j height width : Z) : float :=
  let dx := py_int (axis_offset i height) in
  let dy := py_int (axis_offset j width) in
  let '(dx, dy) := sorted2 dx dy in
  cached_dist dx dy.

(** Two pairs of offsets that are permutations of each other. *)
Definition offsets_permuted (p q : Q * Q) : Prop :=
  (p.1 == q.1 ∧ p.2 == q.2)%Q ∨ (p.1 == q.2 ∧ p.2 == q.1)%Q.


(** ** numpy reductions and constructors *)

Section numpy.
Context {F : Type} `{Float64 F}.

Definition f_zero : F := f_of_Z 0.

(** [np.sum] and [np.mean]; the mean of an empty array is 0/0, NaN. *)
Definition np_sum (l : list F) : F := foldl f_add f_zero l.

Definition np_mean (l : list F) : F :=
  (np_sum l / f_of_Z (Z.of_nat (length l)))%F.

(** [np.maximum] and [np.minimum] propagate NaN. *)
Definition np_maximum (x y : F) : F :=
  if f_isnan x then x else if f_isnan y then y
  else if (x <? y)%F then y else x.

Definition np_minimum (x y : F) : F :=
  if f_isnan x then x else if f_isnan y then y
  else if (y <? x)%F then y else x.

(** [np.max] and [np.min] raise ValueError on an empty array. *)
Definition np_max (l : list F) : option F :=
  match l with
  | [] => None
  | x :: l' => Some (foldl np_maximum x l')
  end.

Definition np_min (l : list F) : option F :=
  match l with
  | [] => None
  | x :: l' => Some (foldl np_minimum x l')
  end.

Fixpoint f_insert (x : F) (l : list F) : list F :=
  match l with
  | [] => [x]
  | y :: l' => if (x <=? y)%F then x :: l else y :: f_insert x l'
  end.

Definition f_sort (l : list F) : list F := foldr f_insert [] l.

(** [np.median]: NaN for an empty array or one that holds a NaN. *)
Definition np_median (l : list F) : F :=
  if existsb f_isnan l then f_nan
  else
    let s := f_sort l in
    let n := length l in
    match n with
    | O => f_nan
    | _ =>
        if Nat.odd n then default f_nan (s !! (n / 2)%nat)
        else np_mean [default f_nan (s !! (n / 2 - 1)%nat);
                      default f_nan (s !! (n / 2)%nat)]
    end.


(** [np.linspace(start, stop, num)] with the end point included. *)
Definition np_linspace (start stop : F) (num : Z) : list F :=
  if num =? 1 then [start]
  else
    let step := ((stop - start) / f_of_Z (num - 1))%F in
    (λ k, if k =? num - 1 then stop else (f_of_Z k * step + start)%F)
      <$> range num.

(** [np.histogram(vals, edges)[0]]: every bin is half open except the
    last one; a NaN falls into no bin. *)
Definition in_bin (lo hi : F) (last : bool) (v : F) : bool :=
  (lo <=? v)%F && (if last then (v <=? hi)%F else (v <? hi)%F).

Definition count_if {A} (p : A → bool) (l : list A) : Z :=
  Z.of_nat (length (filter (λ x, p x = true) l)).

Fixpoint np_histogram (vals edges : list F) : list Z :=
  match edges with
  | lo :: tl =>
      match tl with
      | hi :: rest =>
          count_if (in_bin lo hi (bool_decide (rest = []))) vals
            :: np_histogram vals tl
      | [] => []
      end
  | [] => []
  end.

(** [a[:, c]] of a two-dimensional array. *)
Definition column (a : list (list F)) (c : Z) : option (list F) :=
  mapM (λ row, get1 row c) a.

(** [a[:, c] = a[:, c] / m]. *)
Definition div_column (a : list (list F)) (c : Z) (m : F)
  : option (list (list F)) :=
  mapM (λ row, v ← get1 row c; set1 row c (v / m)%F) a.

End numpy.

(** ** RobustStatistics *)

Section statistics.
Context {F : Type} `{Float64 F}.

(** [scipy.stats.sigmaclip(a, low, high)[0]]. *)
Variable sigmaclip : list F → F → F → list F.

(** [float(s.strip())]; [None] is the ValueError of a malformed
    literal. *)
Variable py_float : string → option F.

(** [s[:n]] and [s[n:]] of a Python string. *)
Definition str_take (n : nat) (s : string) : string := String.substring 0 n s.
Definition str_drop (n : nat) (s : string) : string :=
  String.substring n (String.length s - n) s.

Definition sigma_clip_mean (array : list F) (sigma_clip : F) : F :=
  let reduced := sigmaclip array sigma_clip sigma_clip in
  np_mean reduced.

Definition apply_statistics (array : list F) (statistics : string) : option F :=
  if String.eqb (str_take 10 statistics) "sigma clip" then
    let number := str_drop 10 statistics in
    sigma_clip ← py_float number;
    Some (sigma_clip_mean array sigma_clip)
  else if String.eqb statistics "median" then Some (np_median array)
  else if String.eqb statistics "min" then np_min array
  else if String.eqb statistics "max" then np_max array
  else Some (np_mean array).

End statistics.

(** ** Bayer mosaic conversion *)

Section mosaic.
Context {F : Type} `{Float64 F}.

(** [np.zeros((rows, cols))] and [np.zeros((rows, cols, colors))]; a
    negative dimension raises ValueError. *)
Definition np_zeros2 (rows cols : Z) : option (list (list F)) :=
  if (rows <? 0) || (cols <? 0) then None
  else Some (replicate (Z.to_nat rows) (replicate (Z.to_nat cols) f_zero)).

Definition np_zeros3 (rows cols colors : Z) : option (list (list (list F))) :=
  if (rows <? 0) || (cols <? 0) || (colors <? 0) then None
  else Some (replicate (Z.to_nat rows)
               (replicate (Z.to_nat cols) (replicate (Z.to_nat colors) f_zero))).

(** [int(n / 2)] for the true division of Python 3. *)
Definition half (n : Z) : Z := py_int (inject_Z n / 2).

Definition debayer_pixel (image : list (list F)) (n m : Z)
    (db_image : list (list (list F))) : option (list (list (list F))) :=
  db1 ← (if (n mod 2 =? 0) && (m mod 2 =? 0) then
           v ← get2 image n m; set3 db_image (half (n + 0)) (half (m + 0)) 0 v
         else Some db_image);
  db2 ← (if (n mod 2 =? 0) && (m mod 2 =? 1) then
           v ← get2 image n m; set3 db1 (half (n + 0)) (half (m - 1)) 1 v
         else Some db1);
  db3 ← (if (n mod 2 =? 1) && (m mod 2 =? 0) then
           v ← get2 image n m; set3 db2 (half (n - 1)) (half (m + 0)) 2 v
         else Some db2);
  if (n mod 2 =? 1) && (m mod 2 =? 1) then
    v ← get2 image n m; set3 db3 (half (n - 1)) (half (m - 1)) 3 v
  else Some db3.

(** [debayer(image)] with the default [separate_green=True]. *)
Definition debayer (image : list (list F)) : option (list (list (list F))) :=
  let rows := shape0 image in
  let cols := shape1 image in
  db_image ← np_zeros3 (half rows) (half cols) 4;
  for_each (λ n db, for_each (λ m db, debayer_pixel image n m db) (range cols) db)
           (range rows) db_image.

Definition merge_green (image : list (list (list F))) : option (list (list (list F))) :=
  mapM (mapM (λ px,
    r ← get1 px 0; g1 ← get1 px 1; g2 ← get1 px 2; b ← get1 px 3;
    Some [r; ((g1 + g2) / f_of_Z 2)%F; b])) image.

Definition bayer_channel (image : list (list (list F))) (colors i j c : Z)
    (b_image : list (list F)) : option (list (list F)) :=
  v ← get3 image i j c;
  if c =? 0 then set2 b_image (2 * i + 0) (2 * j + 0) v
  else if c =? 1 then
    b1 ← set2 b_image (2 * i + 1) (2 * j + 0) v;
    if colors =? 3 then set2 b1 (2 * i + 0) (2 * j + 1) v else Some b1
  else if c =? 3 then set2 b_image (2 * i + 0) (2 * j + 1) v
  else set2 b_image (2 * i + 1) (2 * j + 1) v.

(** [bayer(image)] on an array with a colour axis (an array without
    one is returned as it is). *)
Definition bayer (image : list (list (list F))) : option (list (list F)) :=
  let rows := shape0 image in
  let cols := shape1 image in
  let colors := shape2 image in
  b_image ← np_zeros2 (rows * 2) (cols * 2);
  for_each (λ i b,
    for_each (λ j b,
      for_each (λ c b, bayer_channel image colors i j c b) (range colors) b)
      (range cols) b)
    (range rows) b_image.

End mosaic.

(** ** HistogramBuilder *)

Section histograms.
Context {F : Type} `{Float64 F}.

(** The test of [calc_histograms] that sends a pixel to NaN:
    [thisdist > shape[0] / 2 or thisdist > shape[1] / 2]. *)
Definition outside_circle (i j height width : Z) : bool :=
  let thisdist := dist_from_center i j height width in
  PrimFloat.ltb (PrimFloat.div (float_of_Z height) (float_of_Z 2)) thisdist
  || PrimFloat.ltb (PrimFloat.div (float_of_Z width) (float_of_Z 2)) thisdist.

Definition mask_pixel (height width c i j : Z) (image_rgb : list (list (list F)))
  : option (list (list (list F))) :=
  if outside_circle i j height width then set3 image_rgb i j c f_nan
  else Some image_rgb.

Definition mask_channel (height width c : Z) (image_rgb : list (list (list F)))
  : option (list (list (list F))) :=
  for_each (λ i im,
    for_each (λ j im, mask_pixel height width c i j im) (range (shape1 image_rgb)) im)
    (range (shape0 image_rgb)) image_rgb.

(** [image_rgb[:, :, c].flatten()]. *)
Definition plane (image_rgb : list (list (list F))) (c : Z) : option (list F) :=
  mjoin <$> mapM (mapM (λ px, get1 px c)) image_rgb.

Definition histogram_edges : list F :=
  np_linspace f_zero (f_of_Z (2 ^ 12)) (2 ^ 8).

(** One turn of the loop over [c]: the state is the array [image_rgb]
    and the count columns stacked so far. *)
Definition histogram_channel (circular : bool) (height width c : Z)
    (st : list (list (list F)) * list (list Z))
  : option (list (list (list F)) * list (list Z)) :=
  let '(image_rgb, data) := st in
  image_rgb ← (if circular then mask_channel height width c image_rgb
               else Some image_rgb);
  vals ← (if c =? 1 then
            p1 ← plane image_rgb 1; p2 ← plane image_rgb 2; Some (p1 ++ p2)
          else plane image_rgb c);
  let counts := np_histogram vals histogram_edges in
  Some (image_rgb, data ++ [counts]).

(** [calc_histograms]: the returned table has the upper bin edges in
    column 0 and one column of counts per channel after it; the pair
    holds column 0 and the list of the count columns. *)
Definition calc_histograms (image : list (list (list F))) (circular : bool)
  : option (list F * list (list Z)) :=
  image_rgb ← merge_green image;
  let height := shape0 image_rgb in
  let width := shape1 image_rgb in
  st ← for_each (histogram_channel circular height width) (range 3) (image_rgb, []);
  Some (tail histogram_edges, st.2).

End histograms.

(** ** RadialProfileBuilder *)

(** What the function prints. *)
Inductive output :=
  | Print_shape (rows cols : Z)
  | Print_text (s : string).

Definition newline : string := String (Ascii.ascii_of_nat 10) EmptyString.

Definition something_wrong : string :=
  String.append newline (String.append "Something ist wrong!!"
    (String.append newline (String.append "Interrupt!"
      (String.append newline newline)))).

(** The three sample lists of one radius, [rad_counts[rad]]: index 0
    holds R, index 1 both greens, index 2 holds B. *)
Record bins (F : Type) := Bins { bin_R : list F; bin_G : list F; bin_B : list F }.
Arguments Bins {F} _ _ _.
Arguments bin_R {F} _.
Arguments bin_G {F} _.
Arguments bin_B {F} _.

(** [a % b] of Python for integers; ZeroDivisionError when [b] is 0. *)
Definition py_mod (a b : Z) : option Z :=
  if b =? 0 then None else Some (a mod b).

Section radial_profile.
Context {F : Type} `{Float64 F}.
Variable sigmaclip : list F → F → F → list F.
Variable py_float : string → option F.

Definition positive (v : F) : bool := (f_zero <? v)%F.

(** One turn of the loop over the pixels; the state is [radii] and
    [rad_counts]. *)
Definition acquire_pixel (image : list (list (list F)))
    (image_height image_width resolution_factor i j : Z)
    (st : list Z * gmap Z (bins F)) : option (list Z * gmap Z (bins F)) :=
  let '(radii, rad_counts) := st in
  let rad := int_of_float (dist_from_center i j image_height image_width) in
  v0 ← get3 image i j 0;
  if negb (positive v0) then Some st else
  v1 ← get3 image i j 1;
  if negb (positive v1) then Some st else
  v2 ← get3 image i j 2;
  if negb (positive v2) then Some st else
  v3 ← get3 image i j 3;
  if negb (positive v3) then Some st else
  if (i <? IGNORE_EDGE) || (j <? IGNORE_EDGE)
     || (image_height - IGNORE_EDGE <? i) || (image_width - IGNORE_EDGE <? j)
  then Some st else
  mi ← py_mod i resolution_factor;
  if negb (mi =? 0) then Some st else
  mj ← py_mod j resolution_factor;
  if negb (mj =? 0) then Some st else
  let '(radii, rad_counts) :=
    if bool_decide (rad ∈ radii) then (radii, rad_counts)
    else (radii ++ [rad], <[rad := Bins [] [] []]> rad_counts) in
  b ← rad_counts !! rad;
  let b := Bins (bin_R b ++ [v0]) (bin_G b) (bin_B b) in
  let b := Bins (bin_R b) (bin_G b ++ [v1]) (bin_B b) in
  let b := Bins (bin_R b) (bin_G b ++ [v2]) (bin_B b) in
  let b := Bins (bin_R b) (bin_G b) (bin_B b ++ [v3]) in
  Some (radii, <[rad := b]> rad_counts).

Definition acquire (image : list (list (list F))) (resolution_factor : Z)
  : option (list Z * gmap Z (bins F)) :=
  let image_height := shape0 image in
  let image_width := shape1 image in
  for_each (λ i st,
    for_each (λ j st,
      acquire_pixel image image_height image_width resolution_factor i j st)
      (range image_width) st)
    (range image_height) ([], ∅).

(** [rad / maxrad] for two Python integers. *)
Definition int_div (a b : Z) : option F :=
  if b =? 0 then None else Some (f_of_Z a / f_of_Z b)%F.

Definition profile_row (statistics : string) (maxrad : Z)
    (rad_counts : gmap Z (bins F)) (rad : Z) : option (list F * list F) :=
  b ← rad_counts !! rad;
  r ← int_div rad maxrad;
  s1 ← apply_statistics sigmaclip py_float (bin_R b) statistics;
  s2 ← apply_statistics sigmaclip py_float (bin_G b) statistics;
  s3 ← apply_statistics sigmaclip py_float (bin_B b) statistics;
  r' ← int_div rad maxrad;
  Some ([r; s1; s2; s3],
        [r'; np_mean (bin_R b); np_mean (bin_G b); np_mean (bin_B b)]).

(** [calc_rad_profile] up to its safety check: the raw-mean profile,
    the profile with its NaN rows removed, and what was printed. *)
Definition calc_rad_profile_binned (image : list (list (list F)))
    (statistics : string) (resolution_factor : Z)
  : option (list (list F) * list (list F) * list output) :=
  let image_height := shape0 image in
  let image_width := shape1 image in
  let maxrad := int_of_float (dist_from_center 0 0 image_height image_width) in
  '(radii, rad_counts) ← acquire image resolution_factor;
  rows ← mapM (profile_row statistics maxrad rad_counts) (merge_sort Z.le radii);
  let rad_profile := fst <$> rows in
  let rad_profile_raw_mean := snd <$> rows in
  let rad_profile := filter (λ row, existsb f_isnan row = false) rad_profile in
  let out := [Print_shape (shape0 rad_profile) 4] in
  let out :=
    if negb (IGNORE_RADII * 2 <? shape0 rad_profile)
    then out ++ [Print_text something_wrong] else out in
  Some (rad_profile_raw_mean, rad_profile, out).



End radial_profile.

(** ** GradientCorrector *)

Section gradient.
Context {F : Type} `{Float64 F}.
Variable sigmaclip : list F → F → F → list F.










End gradient.

(** ** SyntheticFlatReconstructor *)

Section synthetic_flat.
Context {F : Type} `{Float64 F}.

(** The state of the reconstruction: the array [im_syn], and the
    history of the assignments made to it (a ghost of the proofs, never
    read by the program). *)
Definition flat_state : Type := list (list F) * list (Z * Z * F).

(** [im_syn[i, j] = v]. *)
Definition assign (st : flat_state) (i j : Z) (v : F) : option flat_state :=
  im ← set2 st.1 i j v; Some (im, st.2 ++ [(i, j, v)]).

Definition write_flat_pixel (st : flat_state) (rad_profile : list (list F))
    (grey_flat : bool) (r_index : Z) (i j : Q) : option flat_state :=
  let i := py_int i in
  let j := py_int j in
  if grey_flat then v ← get2 rad_profile r_index 2; assign st i j v
  else
    st ← (if (i mod 2 =? 0) && (j mod 2 =? 0) then
            v ← get2 rad_profile r_index 1; assign st i j v
          else Some st);
    st ← (if (i mod 2 =? 0) && (j mod 2 =? 1) then
            v ← get2 rad_profile r_index 2; assign st i j v
          else Some st);
    st ← (if (i mod 2 =? 1) && (j mod 2 =? 0) then
            v ← get2 rad_profile r_index 2; assign st i j v
          else Some st);
    if (i mod 2 =? 1) && (j mod 2 =? 1) then
      v ← get2 rad_profile r_index 3; assign st i j v
    else Some st.

(** The loop over [k], left at the first multiple outside the
    quadrant. *)
Fixpoint write_multiples (rad_profile : list (list F)) (grey_flat : bool)
    (r_index di dj : Z) (halfheight_ halfwidth_ : Q) (ks : list Z)
    (st : flat_state) : option flat_state :=
  match ks with
  | [] => Some st
  | k :: ks' =>
      if Qlt_bool (inject_Z (di * k)) halfheight_
         && Qlt_bool (inject_Z (dj * k)) halfwidth_ then
        let di_ := (inject_Z (di * k) + (1 # 2))%Q in
        let dj_ := (inject_Z (dj * k) + (1 # 2))%Q in
        st ← write_flat_pixel st rad_profile grey_flat (r_index * k)
               (halfheight_ + di_)%Q (halfwidth_ + dj_)%Q;
        st ← write_flat_pixel st rad_profile grey_flat (r_index * k)
               (halfheight_ + di_)%Q (halfwidth_ - dj_)%Q;
        st ← write_flat_pixel st rad_profile grey_flat (r_index * k)
               (halfheight_ - di_)%Q (halfwidth_ + dj_)%Q;
        st ← write_flat_pixel st rad_profile grey_flat (r_index * k)
               (halfheight_ - di_)%Q (halfwidth_ - dj_)%Q;
        write_multiples rad_profile grey_flat r_index di dj
                        halfheight_ halfwidth_ ks' st
      else Some st
  end.

(** [int((RADIAL_RESOLUTION - 1) * r)] for
    [r = dist_from_center(i, j, height, width) / maxrad_this]. *)
Definition radial_index (i j height width : Z) (maxrad_this : float) : Z :=
  let r := PrimFloat.div (dist_from_center i j height width) maxrad_this in
  int_of_float (PrimFloat.mul (float_of_Z (RADIAL_RESOLUTION - 1)) r).

(** The body of the loops over [di] and [dj]. *)
Definition flat_offset (rad_profile : list (list F)) (grey_flat : bool)
    (height width halfheight halfwidth : Z) (maxrad_this : float)
    (di dj : Z) (st : flat_state) : option flat_state :=
  let i := halfheight + di in
  let j := halfwidth + dj in
  let halfheight_ := (inject_Z halfheight - (1 # 2))%Q in
  let halfwidth_ := (inject_Z halfwidth - (1 # 2))%Q in
  v ← get2 st.1 i j;
  if negb (v ==? f_zero)%F then Some st
  else
    let r_index := radial_index i j height width maxrad_this in
    write_multiples rad_profile grey_flat r_index di dj halfheight_ halfwidth_
                    (range2 1 halfheight) st.

(** [rad_profile[:, c + 1] = rad_profile[:, c + 1] / np.max(...)] for
    the three channels. *)
Definition renormalize (rad_profile : list (list F)) : option (list (list F)) :=
  for_each (λ c p, m ← column p (c + 1) ≫= np_max; div_column p (c + 1) m)
           (range 3) rad_profile.

(** [calc_synthetic_flat] up to the end of its loops. *)
Definition fill_flat (rad_profile : list (list F)) (grey_flat : bool)
    (tif_size : Z * Z) : option flat_state :=
  let '(height, width) := sorted2 tif_size.1 tif_size.2 in
  let halfheight := half height in
  let halfwidth := half width in
  im_syn ← np_zeros2 height width;
  rad_profile ← renormalize rad_profile;
  let maxrad_this := dist_from_center 0 0 height width in
  for_each (λ di st,
    for_each (λ dj st,
      flat_offset rad_profile grey_flat height width halfheight halfwidth
                  maxrad_this di dj st)
      (range halfwidth) st)
    (range halfheight) (im_syn, []).

(** [astype(np.uint16)] of a value in range. *)
Definition astype_uint16 (v : F) : Z := f_to_Z v mod 2 ^ 16.

(** The conversion to 16 bit that ends [calc_synthetic_flat];
    [np.max] of an empty array and [np.min] of an empty selection raise
    ValueError. *)
Definition to_16bit (im_syn : list (list F)) : option (list (list Z)) :=
  m ← np_max (mjoin im_syn);
  let im_syn := fmap (M := list) (fmap (M := list) (λ v, (v / m)%F)) im_syn in
  _ ← np_min (filter (λ v, positive v = true) (mjoin im_syn));
  let im_syn := fmap (M := list) (fmap (M := list) (λ v, (f_of_Z (2 ^ 16 - 1) * v)%F)) im_syn in
  Some (fmap (M := list) (fmap (M := list) astype_uint16) im_syn).

Definition calc_synthetic_flat (rad_profile : list (list F)) (grey_flat : bool)
    (tif_size : Z * Z) : option (list (list Z)) :=
  st ← fill_flat rad_profile grey_flat tif_size;
  to_16bit st.1.

End synthetic_flat.

(** ** Notions used by the statements *)

(** A numpy array of shape (rows, cols, colors). *)
Definition rectangular {A} (image : list (list (list A))) (colors : Z) : Prop :=
  Forall (λ row, Z.of_nat (length row) = shape1 image
                 ∧ Forall (λ px, Z.of_nat (length px) = colors) row) image.




(** A pixel that fails the positivity check of [calc_rad_profile]: one
    of its four samples is not positive. *)
Definition fails_positivity {F} `{Float64 F} (px : list F) : Prop :=
  ∃ (c : nat) (v : F), (c < 4)%nat ∧ px !! c = Some v ∧ positive v = false.

(** ** Inputs of the examples *)

(** scipy's [sigmaclip] on binary64, after its documentation: the
    samples outside [mean - std * low, mean + std * high] are dropped
    until none is. *)
Definition np_std (c : list float) : float :=
  let m := np_mean c in
  PrimFloat.sqrt (np_mean ((λ x, PrimFloat.mul (PrimFloat.abs (PrimFloat.sub x m))
                                               (PrimFloat.abs (PrimFloat.sub x m))) <$> c)).

Fixpoint sigmaclip_loop (fuel : nat) (c : list float) (low high : float) : list float :=
  match fuel with
  | O => c
  | S fuel' =>
      let c_std := np_std c in
      let c_mean := np_mean c in
      let critlower := PrimFloat.sub c_mean (PrimFloat.mul c_std low) in
      let critupper := PrimFloat.add c_mean (PrimFloat.mul c_std high) in
      let c' := filter (λ x, PrimFloat.leb critlower x && PrimFloat.leb x critupper = true) c in
      if (length c' =? length c)%nat then c' else sigmaclip_loop fuel' c' low high
  end.

Definition sigmaclip_f64 (a : list float) (low high : float) : list float :=
  sigmaclip_loop (S (length a)) a low high.

(** The literals of the statistics menu. *)
Definition py_float_f64 (s : string) : option float :=
  if String.eqb s "1.0" then Some 1%float
  else if String.eqb s "2.0" then Some 2%float
  else if String.eqb s "3.0" then Some 3%float
  else None.

(** A 2x2 image whose four samples are zero at every pixel, and a
    22x22 image whose samples are all one. *)
Definition dark_image : list (list (list float)) :=
  replicate 2 (replicate 2 [0; 0; 0; 0]%float).









(** A two-dimensional array of shape (rows, cols). *)
Definition shape_is {A} (a : list (list A)) (rows cols : Z) : Prop :=
  shape0 a = rows ∧ Forall (λ row, shape0 row = cols) a.

(** The value of the last, and of the first, assignment to pixel
    (i, j) in a history of assignments. *)
Fixpoint last_write {F} (trace : list (Z * Z * F)) (i j : Z) : option F :=
  match trace with
  | [] => None
  | (i', j', v) :: trace' =>
      match last_write trace' i j with
      | Some w => Some w
      | None => if (i =? i') && (j =? j') then Some v else None
      end
  end.



(** The shape the specification promises for the synthetic flat. *)
Definition shape_as_requested {F} `{Float64 F} (rad_profile : list (list F))
    (grey_flat : bool) (tif_size : Z * Z) : Prop :=
  ∀ img, calc_synthetic_flat rad_profile grey_flat tif_size = Some img →
    shape0 img = tif_size.1 ∧ shape1 img = tif_size.2.

(** A resampled profile of [RADIAL_RESOLUTION] rows that falls linearly
    from 1 at the centre to 1/2 at the corner, the same in the three
    channels. *)
Fixpoint count_from (n : nat) (start : Z) : list Z :=
  match n with
  | O => []
  | S n' => start :: count_from n' (start + 1)
  end.

Definition falling_row (k : Z) : list float :=
  let r := PrimFloat.div (float_of_Z k) (float_of_Z (RADIAL_RESOLUTION - 1)) in
  let v := PrimFloat.sub 1%float (PrimFloat.mul 0.5%float r) in
  [r; v; v; v].

Definition falling_profile : list (list float) :=
  falling_row <$> count_from (Z.to_nat RADIAL_RESOLUTION) 0.

(** A profile of one row. *)
Definition flat_profile : list (list float) := [[0; 1; 1; 1]%float].

(** What the loops of [calc_synthetic_flat] keep true: the array has
    its shape, and every pixel holds the value of the last assignment
    made to it, or the zero of [np.zeros] when there was none. *)
Definition flat_inv {F} `{Float64 F} (rows cols : Z) (st : flat_state) : Prop :=
  shape_is st.1 rows cols
  ∧ ∀ i j, 0 ≤ i < rows → 0 ≤ j < cols →
      get2 st.1 i j = Some (default f_zero (last_write st.2 i j)).



(** A three-dimensional array of shape (rows, cols, colors). *)
Definition array3 {A} (a : list (list (list A))) (rows cols colors : Z) : Prop :=
  shape_is a rows cols
  ∧ Forall (Forall (λ px, shape0 px = colors)) a.

(** The pixel positions of an image of shape (height, width), row by
    row. *)
Definition pixels (height width : Z) : list (Z * Z) :=
  mjoin ((λ i, (λ j, (i, j)) <$> range width) <$> range height).

(** The sum of the counts of a histogram. *)
Definition total (counts : list Z) : Z := foldr Z.add 0 counts.

(** A sample that some bin of the histogram takes: not NaN and between
    the first edge, 0, and the last one, 4096, both included. *)
Definition within_edges {F} `{Float64 F} (v : F) : bool :=
  (f_zero <=? v)%F && (v <=? f_of_Z (2 ^ 12))%F.

(** The number of pixels that [calc_histograms] does not mask and
    whose sample in channel [c] of the input image lies within the
    edges. *)
Definition unmasked_in_range {F} `{Float64 F} (image : list (list (list F)))
    (c : Z) : Z :=
  let height := shape0 image in
  let width := shape1 image in
  count_if (λ p, negb (outside_circle p.1 p.2 height width)
                 && within_edges (default f_nan (get3 image p.1 p.2 c)))
           (pixels height width).

(** A pixel strictly inside the circle inscribed in the image, of
    centre (height / 2, width / 2) and radius min(height, width) / 2;
    the test is exact, on the doubled coordinates. *)
Definition strictly_inside (i j height width : Z) : bool :=
  (2 * i - height) ^ 2 + (2 * j - width) ^ 2 <? Z.min height width ^ 2.

(** What the specification promises of the histogram with the circular
    restriction. *)
Definition counts_pixels_inside {F} `{Float64 F} (image : list (list (list F)))
  : Prop :=
  ∀ edges columns counts,
    calc_histograms image true = Some (edges, columns) →
    counts ∈ columns →
    total counts
    = count_if (λ p, strictly_inside p.1 p.2 (shape0 image) (shape1 image))
               (pixels (shape0 image) (shape1 image)).

(** A 2x2 image whose samples are all 100. *)
Definition grey_image : list (list (list float)) :=
  replicate 2 (replicate 2 [100; 100; 100; 100]%float).

(** ** Invariants of the loops *)

Section invariants.
Context {F : Type} `{Float64 F}.


(** The array after the pixels of [done] were visited by the masking
    loop of channel [c], started on [im0]. *)
Definition masked_upto (im0 : list (list (list F))) (height width c : Z)
    (done : list (Z * Z)) (st : list (list (list F))) : Prop :=
  array3 st height width 3
  ∧ ∀ i j c', 0 ≤ i < height → 0 ≤ j < width → 0 ≤ c' < 3 →
      get3 st i j c'
      = if decide (c' = c ∧ (i, j) ∈ done ∧ outside_circle i j height width = true)
        then Some f_nan else get3 im0 i j c'.

End invariants.

(** Edges that are numbers and do not decrease. *)
Fixpoint ascendingb (edges : list xreal) : bool :=
  match edges with
  | [] => true
  | None :: _ => false
  | Some a :: tl =>
      match tl with
      | [] => true
      | None :: _ => false
      | Some b :: _ => Qle_bool a b && ascendingb tl
      end
  end.

(** A 2x2 image in exact arithmetic whose samples are all 100. *)
Definition grey_ximage : list (list (list xreal)) :=
  replicate 2 (replicate 2 [Some 100%Q; Some 100%Q; Some 100%Q; Some 100%Q]).

(** The sum of every count column that [calc_histograms] returns. *)
Definition histogram_totals {F} `{Float64 F} (image : list (list (list F)))
    (circular : bool) : option (list Z) :=
  match calc_histograms image circular with
  | Some (_, columns) => Some (List.map total columns)
  | None => None
  end.

(** ** The gradient as the specification words it *)

Section gradient_statement.
Context {F : Type} `{Float64 F}.
Variable sigmaclip : list F → F → F → list F.











End gradient_statement.

(** A 3x3 image of two channels on binary64. *)
Definition small_image : list (list (list float)) :=
  [[[1; 2]; [3; 4]; [5; 6]]; [[7; 8]; [9; 10]; [11; 12]];
   [[13; 14]; [15; 16]; [17; 18]]]%float.


(** * Verification *)

(** ** Arrays and loops *)

Section arrays.
Context {A : Type}.

Lemma np_idx_inrange (n : nat) (i : Z) :
  0 ≤ i < Z.of_nat n → np_idx n i = Some (Z.to_nat i).
Proof.
  intros Hi. unfold np_idx.
  destruct (Z.leb_spec 0 i); [|lia]. destruct (Z.ltb_spec i (Z.of_nat n)); [|lia].
  reflexivity.
Qed.

Lemma np_idx_lt (n : nat) (i : Z) (k : nat) :
  np_idx n i = Some k → (k < n)%nat.
Proof.
  unfold np_idx. intros Hk.
  destruct (Z.leb_spec 0 i), (Z.ltb_spec i (Z.of_nat n)); simpl in Hk.
  - inversion Hk. lia.
  - destruct (Z.leb_spec (- Z.of_nat n) i), (Z.ltb_spec i 0); simpl in Hk;
      try discriminate. lia.
  - destruct (Z.leb_spec (- Z.of_nat n) i), (Z.ltb_spec i 0); simpl in Hk;
      try discriminate. inversion Hk. lia.
  - destruct (Z.leb_spec (- Z.of_nat n) i), (Z.ltb_spec i 0); simpl in Hk;
      try discriminate. inversion Hk. lia.
Qed.

Lemma get1_inrange (l : list A) (i : Z) :
  0 ≤ i < Z.of_nat (length l) → get1 l i = l !! Z.to_nat i.
Proof. intros Hi. unfold get1. by rewrite np_idx_inrange. Qed.

Lemma get1_nat (l : list A) (k : nat) (x : A) :
  l !! k = Some x → get1 l (Z.of_nat k) = Some x.
Proof.
  intros Hk. rewrite get1_inrange.
  - by rewrite Nat2Z.id.
  - apply lookup_lt_Some in Hk. lia.
Qed.


Lemma set1_inrange (l : list A) (i : Z) (v : A) :
  0 ≤ i < Z.of_nat (length l) → set1 l i v = Some (<[Z.to_nat i := v]> l).
Proof. intros Hi. unfold set1. by rewrite np_idx_inrange. Qed.

Lemma set1_length (l l' : list A) (i : Z) (v : A) :
  set1 l i v = Some l' → length l' = length l.
Proof.
  unfold set1. destruct (np_idx (length l) i); simpl; [|discriminate].
  intros [= <-]. apply length_insert.
Qed.

Lemma get1_set1_eq (l l' : list A) (i : Z) (v : A) :
  set1 l i v = Some l' → get1 l' i = Some v.
Proof.
  intros Hs. unfold get1. rewrite (set1_length _ _ _ _ Hs).
  unfold set1 in Hs. destruct (np_idx (length l) i) as [k|] eqn:Hk; [|discriminate].
  simpl in *. injection Hs as <-. apply list_lookup_insert_eq.
  by eapply np_idx_lt.
Qed.

End arrays.

Section loops.
Context {S I : Type}.

Lemma for_each_app (body : I → S → option S) (l1 l2 : list I) (s : S) :
  for_each body (l1 ++ l2) s = s' ← for_each body l1 s; for_each body l2 s'.
Proof.
  revert s. induction l1 as [|x l1 IH]; intros s; simpl; [done|].
  destruct (body x s); simpl; [apply IH|done].
Qed.

(** An invariant kept by every turn of a loop holds when the loop ends. *)
Lemma for_each_invariant (P : S → Prop) (body : I → S → option S) (l : list I) :
  (∀ x s s', x ∈ l → P s → body x s = Some s' → P s') →
  ∀ s s', P s → for_each body l s = Some s' → P s'.
Proof.
  induction l as [|x l IH]; intros Hbody s s' Hs Hrun; simpl in Hrun.
  - by injection Hrun as <-.
  - destruct (body x s) as [s1|] eqn:Hx; [|discriminate]. simpl in Hrun.
    eapply IH; [| |exact Hrun].
    + intros y t t' Hy. apply Hbody. by right.
    + eapply Hbody; [by left|exact Hs|exact Hx].
Qed.


End loops.

(** ** DistanceMetric *)

Section distance.

Lemma py_int_proper (x y : Q) : (x == y)%Q → py_int x = py_int y.
Proof.
  intros E. unfold py_int.
  rewrite (Qleb_comp 0%Q 0%Q (Qeq_refl 0%Q) x y E).
  by rewrite (Qfloor_comp x y E), (Qceiling_comp x y E).
Qed.

Lemma sorted2_comm (a b : Z) : sorted2 a b = sorted2 b a.
Proof.
  unfold sorted2.
  destruct (Z.leb_spec a b), (Z.leb_spec b a); try reflexivity; try lia.
  f_equal; lia.
Qed.

(** C7. Whenever the pair (|i - h/2|, |j - w/2|) is a permutation of
    the pair (|i' - h/2|, |j' - w/2|), [dist_from_center] returns the
    same distance at (i, j) and at (i', j'). *)
Theorem dist_from_center_symmetric (i j i' j' h w : Z) :
  offsets_permuted (axis_offset i h, axis_offset j w)
                   (axis_offset i' h, axis_offset j' w) →
  dist_from_center i j h w = dist_from_center i' j' h w.
Proof.
  unfold dist_from_center. intros [[E1 E2]|[E1 E2]]; simpl in E1, E2.
  - by rewrite (py_int_proper _ _ E1), (py_int_proper _ _ E2).
  - rewrite (py_int_proper _ _ E1), (py_int_proper _ _ E2).
    by rewrite sorted2_comm.
Qed.

Lemma dist_from_center_symmetric_witness :
  offsets_permuted (axis_offset 1 6, axis_offset 7 8)
                   (axis_offset 6 6, axis_offset 2 8)
  ∧ dist_from_center 1 7 6 8 = dist_from_center 6 2 6 8.
Proof.
  assert (H : offsets_permuted (axis_offset 1 6, axis_offset 7 8)
                               (axis_offset 6 6, axis_offset 2 8)).
  { right. split; reflexivity. }
  split; [exact H | exact (dist_from_center_symmetric 1 7 6 2 6 8 H)].
Defined.

End distance.

(** ** RobustStatistics *)

Section statistics_facts.
Context {F : Type} `{Float64 F}.
Variable sigmaclip : list F → F → F → list F.
Variable py_float : string → option F.

(** The slice test of [apply_statistics] is the prefix test. *)
Lemma sigma_clip_prefix (statistics : string) :
  String.eqb (str_take 10 statistics) "sigma clip" = String.prefix "sigma clip" statistics.
Proof.
  apply eq_true_iff_eq. rewrite String.eqb_eq.
  symmetry. apply (String.prefix_correct "sigma clip" statistics).
Qed.

(** C10. A statistics name that is none of 'median', 'min', 'max' and
    does not begin with 'sigma clip' makes [apply_statistics] return the
    arithmetic mean of the samples, their sum divided by their number:
    an unknown name falls back to the mean and nothing is raised. *)
Theorem apply_statistics_falls_back_to_mean (array : list F) (statistics : string) :
  array ≠ [] →
  statistics ≠ "median" → statistics ≠ "min" → statistics ≠ "max" →
  String.prefix "sigma clip" statistics = false →
  apply_statistics sigmaclip py_float array statistics
    = Some (np_sum array / f_of_Z (Z.of_nat (length array)))%F.
Proof.
  intros _ Hmedian Hmin Hmax Hclip. unfold apply_statistics.
  rewrite sigma_clip_prefix, Hclip.
  apply String.eqb_neq in Hmedian, Hmin, Hmax.
  by rewrite Hmedian, Hmin, Hmax.
Qed.

End statistics_facts.

Lemma apply_statistics_falls_back_to_mean_witness :
  apply_statistics (λ l _ _, l) (λ _, None) [1; 2; 6]%float "average" = Some 3%float.
Proof.
  refine (apply_statistics_falls_back_to_mean (λ l _ _, l) (λ _, None)
            [1; 2; 6]%float "average" _ _ _ _ _); [done|done|done|done|reflexivity].
Defined.

(** ** Bayer mosaic conversion *)

(** C9, the failing input.  On the 2x2 mosaic [[1, 2], [3, 4]] the
    composition [bayer(debayer(image))] returns [[1, 4], [2, 3]]: only
    the red site comes back to its place. *)
Lemma bayer_debayer_moves_sites :
  (debayer [[1; 2]; [3; 4]]%float ≫= bayer) = Some [[1; 4]; [2; 3]]%float.
Proof. vm_compute. reflexivity. Qed.

(** ** RadialProfileBuilder *)

Section images.
Context {A : Type}.

Lemma shape1_row (image : list (list (list A))) (colors : Z) (i : nat) (row : list (list A)) :
  rectangular image colors → image !! i = Some row →
  Z.of_nat (length row) = shape1 image.
Proof.
  intros Hrect Hi. unfold rectangular in Hrect. rewrite Forall_forall in Hrect.
  apply (Hrect row). by eapply list_elem_of_lookup_2.
Qed.

Lemma get3_inrange (image : list (list (list A))) (colors i j c : Z) :
  rectangular image colors →
  0 ≤ i < shape0 image → 0 ≤ j < shape1 image → 0 ≤ c < colors →
  ∃ row px v,
    image !! Z.to_nat i = Some row ∧ row !! Z.to_nat j = Some px
    ∧ px !! Z.to_nat c = Some v ∧ get3 image i j c = Some v.
Proof.
  intros Hrect Hi Hj Hc. unfold shape0 in Hi.
  destruct (lookup_lt_is_Some_2 image (Z.to_nat i)) as [row Hrow]; [lia|].
  unfold rectangular in Hrect. rewrite Forall_forall in Hrect.
  destruct (Hrect row) as [Hlen Hpx]; [by eapply list_elem_of_lookup_2|].
  destruct (lookup_lt_is_Some_2 row (Z.to_nat j)) as [px Hp]; [lia|].
  rewrite Forall_forall in Hpx.
  specialize (Hpx px (list_elem_of_lookup_2 _ _ _ Hp)).
  destruct (lookup_lt_is_Some_2 px (Z.to_nat c)) as [v Hv]; [lia|].
  exists row, px, v. repeat split; try done.
  unfold get3, get2. rewrite get1_inrange by done. rewrite Hrow. simpl.
  rewrite get1_inrange by lia. rewrite Hp. simpl.
  rewrite get1_inrange by lia. done.
Qed.

End images.

Lemma elem_of_range (n i : Z) : i ∈ range n ↔ 0 ≤ i < n.
Proof. unfold range. rewrite elem_of_seqZ. lia. Qed.

Section radial_profile_facts.
Context {F : Type} `{Float64 F}.
Variable sigmaclip : list F → F → F → list F.
Variable py_float : string → option F.







(** An image without a valid pixel leaves [radii] and [rad_counts]
    empty. *)
Lemma acquire_pixel_invalid (image : list (list (list F)))
    (resolution_factor i j : Z) (st : list Z * gmap Z (bins F)) :
  rectangular image 4 → Forall (Forall fails_positivity) image →
  0 ≤ i < shape0 image → 0 ≤ j < shape1 image →
  acquire_pixel image (shape0 image) (shape1 image) resolution_factor i j st = Some st.
Proof.
  intros Hrect Hfail Hi Hj.
  destruct (get3_inrange image 4 i j 0) as (row & px & v0 & Hrow & Hpx & Hv0 & E0); try done.
  destruct (get3_inrange image 4 i j 1) as (row1 & px1 & v1 & Hrow1 & Hpx1 & Hv1 & E1); try done.
  destruct (get3_inrange image 4 i j 2) as (row2 & px2 & v2 & Hrow2 & Hpx2 & Hv2 & E2); try done.
  destruct (get3_inrange image 4 i j 3) as (row3 & px3 & v3 & Hrow3 & Hpx3 & Hv3 & E3); try done.
  simplify_eq.
  rewrite Forall_forall in Hfail.
  pose proof (Hfail row (list_elem_of_lookup_2 _ _ _ Hrow)) as Hfrow.
  rewrite Forall_forall in Hfrow.
  destruct (Hfrow px (list_elem_of_lookup_2 _ _ _ Hpx)) as (c & v & Hc & Hv & Hneg).
  unfold acquire_pixel. destruct st as [radii rad_counts].
  rewrite E0. simpl. destruct (positive v0) eqn:P0; simpl; [|done].
  rewrite E1. simpl. destruct (positive v1) eqn:P1; simpl; [|done].
  rewrite E2. simpl. destruct (positive v2) eqn:P2; simpl; [|done].
  rewrite E3. simpl. destruct (positive v3) eqn:P3; simpl; [|done].
  exfalso.
  change (Z.to_nat 0) with 0%nat in Hv0. change (Z.to_nat 1) with 1%nat in Hv1.
  change (Z.to_nat 2) with 2%nat in Hv2. change (Z.to_nat 3) with 3%nat in Hv3.
  destruct c as [|[|[|[|c]]]]; [| | | |lia]; simplify_eq; congruence.
Qed.

(** C6. An image in which every pixel fails the positivity check gives
    an empty profile, and [calc_rad_profile] prints its
    "Something ist wrong!!" warning before going on: the shortage of
    valid radii is reported, the empty profile does not pass in
    silence. *)
Theorem no_valid_pixel_is_reported (image : list (list (list F)))
    (statistics : string) (resolution_factor : Z) :
  rectangular image 4 → Forall (Forall fails_positivity) image →
  calc_rad_profile_binned sigmaclip py_float image statistics resolution_factor
  = Some ([], [], [Print_shape 0 4; Print_text something_wrong]).
Proof.
  intros Hrect Hfail. unfold calc_rad_profile_binned.
  assert (acquire image resolution_factor = Some ([], ∅)) as ->; [|done].
  unfold acquire.
  assert (∀ (l : list Z) (st : list Z * gmap Z (bins F)),
            (∀ i, i ∈ l → 0 ≤ i < shape0 image) →
            for_each (λ i st, for_each (λ j st,
                acquire_pixel image (shape0 image) (shape1 image) resolution_factor i j st)
                (range (shape1 image)) st) l st = Some st) as Hrows.
  { intros l. induction l as [|i l IH]; intros st Hl; simpl; [done|].
    assert (∀ (l' : list Z), (∀ j, j ∈ l' → 0 ≤ j < shape1 image) →
              for_each (λ j st,
                acquire_pixel image (shape0 image) (shape1 image) resolution_factor i j st)
                l' st = Some st) as Hcols.
    { intros l'. induction l' as [|j l' IH']; intros Hl'; simpl; [done|].
      rewrite acquire_pixel_invalid; try done.
      - simpl. apply IH'. intros j' Hj'. apply Hl'. by right.
      - apply Hl. by left.
      - apply Hl'. by left. }
    rewrite Hcols by (intros j; apply elem_of_range). simpl.
    apply IH. intros i' Hi'. apply Hl. by right. }
  apply Hrows. intros i. apply elem_of_range.
Qed.

End radial_profile_facts.

Lemma rectangular_replicate {A} (rows cols : nat) (px : list A) :
  rectangular (replicate rows (replicate cols px)) (Z.of_nat (length px)).
Proof.
  unfold rectangular. apply Forall_forall. intros row [-> Hrows]%elem_of_replicate.
  split.
  - unfold shape1. destruct rows; [done|]. simpl. done.
  - apply Forall_forall. by intros px' [-> _]%elem_of_replicate.
Qed.


Lemma no_valid_pixel_is_reported_witness :
  calc_rad_profile_binned sigmaclip_f64 py_float_f64 dark_image "mean" 1
  = Some ([], [], [Print_shape 0 4; Print_text something_wrong]).
Proof.
  refine (no_valid_pixel_is_reported sigmaclip_f64 py_float_f64 dark_image "mean" 1 _ _).
  - exact (rectangular_replicate 2 2 [0; 0; 0; 0]%float).
  - apply Forall_replicate, Forall_replicate.
    exists 0%nat, 0%float. split; [lia|]. split; reflexivity.
Defined.

(** ** ProfileRefiner: the normalisation *)

Section columns.
Context {F : Type} `{Float64 F}.



End columns.

Section xreal_maximum.

Lemma Qlt_bool_true (a b : Q) : Qlt_bool a b = true ↔ (a < b)%Q.
Proof.
  unfold Qlt_bool. rewrite negb_true_iff. split.
  - intros Hle. apply Qnot_le_lt. intros Hba. apply Qle_bool_iff in Hba. congruence.
  - intros Hlt. destruct (Qle_bool b a) eqn:E; [|done].
    apply Qle_bool_iff in E. exfalso. by apply (Qlt_not_le a b).
Qed.

Lemma Qlt_bool_false (a b : Q) : Qlt_bool a b = false ↔ (b <= a)%Q.
Proof.
  unfold Qlt_bool. rewrite negb_false_iff. apply Qle_bool_iff.
Qed.








End xreal_maximum.

Section normalization.
Context {F : Type} `{Float64 F}.


End normalization.




(** ** SyntheticFlatReconstructor *)

Section arrays2.
Context {A : Type}.

Lemma np_idx_nonneg (n : nat) (i : Z) (k : nat) :
  0 ≤ i → np_idx n i = Some k → k = Z.to_nat i ∧ i < Z.of_nat n.
Proof.
  intros Hi. unfold np_idx.
  destruct (Z.leb_spec 0 i); [|lia]. destruct (Z.ltb_spec i (Z.of_nat n)); simpl.
  - intros [= <-]. done.
  - destruct (Z.ltb_spec i 0); [lia|]. rewrite andb_false_r. done.
Qed.

Lemma set1_nonneg (l l' : list A) (i : Z) (v : A) :
  0 ≤ i → set1 l i v = Some l' →
  i < Z.of_nat (length l) ∧ l' = <[Z.to_nat i := v]> l.
Proof.
  intros Hi. unfold set1.
  destruct (np_idx (length l) i) as [k|] eqn:Hk; [|done]. simpl. intros [= <-].
  destruct (np_idx_nonneg _ _ _ Hi Hk) as [-> ?]. done.
Qed.

Lemma get1_nonneg (l : list A) (i : Z) (x : A) :
  0 ≤ i → get1 l i = Some x →
  i < Z.of_nat (length l) ∧ l !! Z.to_nat i = Some x.
Proof.
  intros Hi. unfold get1.
  destruct (np_idx (length l) i) as [k|] eqn:Hk; [|done]. simpl. intros Hx.
  destruct (np_idx_nonneg _ _ _ Hi Hk) as [-> ?]. done.
Qed.

End arrays2.

Section arrays3.
Context {A : Type}.

(** An assignment [a[i', j'] = v] with plain indices keeps the shape
    and changes the one element it names. *)
Lemma set2_spec (a a' : list (list A)) (rows cols i' j' : Z) (v : A) :
  shape_is a rows cols → 0 ≤ i' → 0 ≤ j' → set2 a i' j' v = Some a' →
  i' < rows ∧ j' < cols ∧ shape_is a' rows cols
  ∧ ∀ i j, 0 ≤ i < rows → 0 ≤ j < cols →
      get2 a' i j = if decide (i = i' ∧ j = j') then Some v else get2 a i j.
Proof.
  intros [Hrows Hcols] Hi' Hj' Hset. unfold set2 in Hset.
  destruct (get1 a i') as [row|] eqn:Hrow; [|done]. simpl in Hset.
  destruct (set1 row j' v) as [row'|] eqn:Hrow'; [|done]. simpl in Hset.
  apply get1_nonneg in Hrow as [Hi'lt Hrow]; [|done].
  apply set1_nonneg in Hrow' as [Hj'lt ->]; [|done].
  apply set1_nonneg in Hset as [_ ->]; [|done].
  unfold shape0 in *.
  assert (Z.of_nat (length row) = cols) as Hlen.
  { rewrite Forall_forall in Hcols. apply (Hcols row). by eapply list_elem_of_lookup_2. }
  split; [lia|]. split; [lia|]. split.
  - unfold shape_is, shape0. split; [by rewrite length_insert|].
    apply Forall_insert; [done|]. by rewrite length_insert.
  - intros i j Hi Hj. unfold get2.
    rewrite (get1_inrange (<[_ := _]> a)) by (rewrite length_insert; lia).
    rewrite (get1_inrange a) by lia.
    destruct (decide (i = i')) as [->|Hne].
    + rewrite list_lookup_insert_eq by lia. rewrite Hrow. simpl.
      rewrite !get1_inrange by (rewrite ?length_insert; lia).
      destruct (decide (j = j')) as [->|Hne'].
      * rewrite list_lookup_insert_eq by lia. by rewrite decide_True.
      * rewrite list_lookup_insert_ne by lia. rewrite decide_False by tauto. done.
    + rewrite list_lookup_insert_ne by lia. rewrite decide_False by tauto. done.
Qed.

End arrays3.

Lemma py_int_inject_Z (n : Z) : py_int (inject_Z n) = n.
Proof.
  unfold py_int. destruct (Qle_bool 0 (inject_Z n)); [apply Qfloor_Z|apply Qceiling_Z].
Qed.

Lemma py_int_half_plus (a b : Z) :
  py_int ((inject_Z a - (1 # 2)) + (inject_Z b + (1 # 2)))%Q = a + b.
Proof.
  rewrite <- (py_int_inject_Z (a + b)). apply py_int_proper.
  rewrite inject_Z_plus. ring.
Qed.

Lemma py_int_half_minus (a b : Z) :
  py_int ((inject_Z a - (1 # 2)) - (inject_Z b + (1 # 2)))%Q = a - b - 1.
Proof.
  rewrite <- (py_int_inject_Z (a - b - 1)). apply py_int_proper.
  unfold Z.sub. rewrite !inject_Z_plus, !inject_Z_opp.
  change (inject_Z 1) with 1%Q. field.
Qed.

Lemma below_half (x n : Z) :
  Qlt_bool (inject_Z x) (inject_Z n - (1 # 2))%Q = true ↔ x < n.
Proof.
  rewrite Qlt_bool_true. unfold Qlt, Qminus, Qplus, Qopp, inject_Z. simpl. lia.
Qed.

Lemma sorted2_min_max (a b : Z) : sorted2 a b = (Z.min a b, Z.max a b).
Proof. unfold sorted2. destruct (Z.leb_spec a b); f_equal; lia. Qed.

Section flat_facts.
Context {F : Type} `{Float64 F}.

Lemma last_write_snoc (trace : list (Z * Z * F)) (i' j' : Z) (v : F) (i j : Z) :
  last_write (trace ++ [(i', j', v)]) i j
  = if decide (i = i' ∧ j = j') then Some v else last_write trace i j.
Proof.
  induction trace as [|[[a b] x] trace IH]; simpl.
  - destruct (Z.eqb_spec i i'), (Z.eqb_spec j j'); simpl;
      case_decide; try done; tauto.
  - rewrite IH. by case_decide.
Qed.

Lemma assign_inv (rows cols : Z) (st st' : flat_state) (i' j' : Z) (v : F) :
  flat_inv rows cols st → 0 ≤ i' → 0 ≤ j' →
  assign st i' j' v = Some st' → flat_inv rows cols st'.
Proof.
  intros [Hshape Hlast] Hi' Hj'. unfold assign.
  destruct (set2 st.1 i' j' v) as [im|] eqn:Hset; [|done]. simpl. intros [= <-].
  destruct (set2_spec _ _ _ _ _ _ _ Hshape Hi' Hj' Hset) as (_ & _ & Hshape' & Hget).
  split; [done|]. simpl. intros i j Hi Hj.
  rewrite Hget, last_write_snoc by done. case_decide; [done|]. by apply Hlast.
Qed.

Lemma guarded_assign_inv (rows cols : Z) (st st' : flat_state) (b : bool)
    (o : option F) (i' j' : Z) :
  flat_inv rows cols st → 0 ≤ i' → 0 ≤ j' →
  (if b then v ← o; assign st i' j' v else Some st) = Some st' →
  flat_inv rows cols st'.
Proof.
  intros Hinv Hi' Hj'. destruct b; [|by intros [= <-]].
  destruct o as [v|]; [|done]. simpl. by apply assign_inv.
Qed.

Lemma write_flat_pixel_inv (rows cols : Z) (st st' : flat_state)
    (rad_profile : list (list F)) (grey_flat : bool) (r_index : Z) (i j : Q) :
  flat_inv rows cols st → 0 ≤ py_int i → 0 ≤ py_int j →
  write_flat_pixel st rad_profile grey_flat r_index i j = Some st' →
  flat_inv rows cols st'.
Proof.
  intros Hinv Hi Hj. unfold write_flat_pixel. destruct grey_flat.
  - apply (guarded_assign_inv rows cols st st' true); done.
  - intros Hrun.
    destruct (if (py_int i mod 2 =? 0) && (py_int j mod 2 =? 0) then _ else _)
      as [st1|] eqn:E1; [|done]. simpl in Hrun.
    destruct (if (py_int i mod 2 =? 0) && (py_int j mod 2 =? 1) then _ else _)
      as [st2|] eqn:E2; [|done]. simpl in Hrun.
    destruct (if (py_int i mod 2 =? 1) && (py_int j mod 2 =? 0) then _ else _)
      as [st3|] eqn:E3; [|done]. simpl in Hrun.
    apply (guarded_assign_inv rows cols) in E1; [|done..].
    apply (guarded_assign_inv rows cols) in E2; [|done..].
    apply (guarded_assign_inv rows cols) in E3; [|done..].
    by apply (guarded_assign_inv rows cols) in Hrun.
Qed.

Lemma write_multiples_inv (rows cols : Z) (rad_profile : list (list F))
    (grey_flat : bool) (r_index di dj halfheight halfwidth : Z) (ks : list Z)
    (st st' : flat_state) :
  flat_inv rows cols st → 0 ≤ di → 0 ≤ dj → Forall (λ k, 0 ≤ k) ks →
  write_multiples rad_profile grey_flat r_index di dj
    (inject_Z halfheight - (1 # 2))%Q (inject_Z halfwidth - (1 # 2))%Q ks st
  = Some st' →
  flat_inv rows cols st'.
Proof.
  intros Hinv Hdi Hdj Hks. revert st Hinv.
  induction Hks as [|k ks Hk Hks IH]; intros st Hinv Hrun; simpl in Hrun.
  - by injection Hrun as <-.
  - destruct (Qlt_bool (inject_Z (di * k)) _) eqn:Hh; simpl in Hrun;
      [|by injection Hrun as <-].
    destruct (Qlt_bool (inject_Z (dj * k)) _) eqn:Hw; simpl in Hrun;
      [|by injection Hrun as <-].
    apply below_half in Hh, Hw.
    destruct (write_flat_pixel st _ _ _ _ _) as [st1|] eqn:E1; [|done]. simpl in Hrun.
    destruct (write_flat_pixel st1 _ _ _ _ _) as [st2|] eqn:E2; [|done]. simpl in Hrun.
    destruct (write_flat_pixel st2 _ _ _ _ _) as [st3|] eqn:E3; [|done]. simpl in Hrun.
    destruct (write_flat_pixel st3 _ _ _ _ _) as [st4|] eqn:E4; [|done]. simpl in Hrun.
    assert (0 ≤ di * k) by lia. assert (0 ≤ dj * k) by lia.
    apply write_flat_pixel_inv with (rows := rows) (cols := cols) in E1;
      [|done|rewrite py_int_half_plus; lia..].
    apply write_flat_pixel_inv with (rows := rows) (cols := cols) in E2;
      [|done|rewrite ?py_int_half_plus, ?py_int_half_minus; lia..].
    apply write_flat_pixel_inv with (rows := rows) (cols := cols) in E3;
      [|done|rewrite ?py_int_half_plus, ?py_int_half_minus; lia..].
    apply write_flat_pixel_inv with (rows := rows) (cols := cols) in E4;
      [|done|rewrite ?py_int_half_plus, ?py_int_half_minus; lia..].
    by eapply IH.
Qed.


Lemma flat_offset_inv (rows cols : Z) (rad_profile : list (list F))
    (grey_flat : bool) (height width halfheight halfwidth : Z)
    (maxrad_this : float) (di dj : Z) (st st' : flat_state) :
  flat_inv rows cols st → 0 ≤ di → 0 ≤ dj →
  flat_offset rad_profile grey_flat height width halfheight halfwidth
              maxrad_this di dj st = Some st' →
  flat_inv rows cols st'.
Proof.
  intros Hinv Hdi Hdj. unfold flat_offset.
  destruct (get2 st.1 _ _) as [v|]; [|done]. simpl.
  destruct (negb _); [by intros [= <-]|].
  apply write_multiples_inv; try done.
  apply Forall_forall. intros k. unfold range2. rewrite elem_of_seqZ. lia.
Qed.

Lemma np_zeros2_inv (rows cols : Z) (im : list (list F)) :
  np_zeros2 rows cols = Some im → flat_inv rows cols (im, []).
Proof.
  unfold np_zeros2. destruct (Z.ltb_spec rows 0); [done|].
  destruct (Z.ltb_spec cols 0); [done|]. simpl. intros [= <-].
  split; simpl.
  - split; [unfold shape0; rewrite length_replicate; lia|].
    apply Forall_replicate. unfold shape0. rewrite length_replicate. lia.
  - intros i j Hi Hj. unfold get2.
    rewrite get1_inrange by (rewrite length_replicate; lia).
    rewrite lookup_replicate_2 by lia. simpl.
    rewrite get1_inrange by (rewrite length_replicate; lia).
    by rewrite lookup_replicate_2 by lia.
Qed.

Lemma fill_flat_inv (rad_profile : list (list F)) (grey_flat : bool)
    (h w : Z) (st : flat_state) :
  fill_flat rad_profile grey_flat (h, w) = Some st →
  flat_inv (Z.min h w) (Z.max h w) st.
Proof.
  unfold fill_flat. simpl. rewrite sorted2_min_max.
  destruct (np_zeros2 _ _) as [im|] eqn:Hz; [|done]. simpl.
  destruct (renormalize rad_profile) as [p|]; [|done]. simpl.
  apply np_zeros2_inv in Hz. revert Hz.
  generalize (@nil (Z * Z * F)). intros trace Hinv Hrun.
  eapply (for_each_invariant (flat_inv (Z.min h w) (Z.max h w))); [|exact Hinv|exact Hrun].
  intros di s s' Hdi%elem_of_range Hs Hrow.
  eapply (for_each_invariant (flat_inv (Z.min h w) (Z.max h w))); [|exact Hs|exact Hrow].
  intros dj t t' Hdj%elem_of_range Ht Hstep.
  eapply flat_offset_inv; [exact Ht| | |exact Hstep]; lia.
Qed.

Lemma to_16bit_shape (im : list (list F)) (img : list (list Z)) (rows cols : Z) :
  shape_is im rows cols → to_16bit im = Some img → shape_is img rows cols.
Proof.
  intros [Hrows Hcols]. unfold to_16bit.
  destruct (np_max _) as [m|]; [|done]. simpl.
  destruct (np_min _) as [?|]; [|done]. simpl. intros [= <-].
  unfold shape_is, shape0 in *. split.
  - by rewrite !length_fmap.
  - rewrite !Forall_fmap. eapply Forall_impl; [exact Hcols|].
    intros row Hrow. simpl. by rewrite !length_fmap.
Qed.

(** C5 as amended. The requested size is sorted before use: whenever
    [calc_synthetic_flat] returns, the array has min(h, w) rows and each
    of its rows has max(h, w) entries; this is the requested (h, w)
    when h <= w and the transposed footprint otherwise. *)
Theorem flat_shape_is_sorted (rad_profile : list (list F)) (grey_flat : bool)
    (h w : Z) (img : list (list Z)) :
  calc_synthetic_flat rad_profile grey_flat (h, w) = Some img →
  shape_is img (Z.min h w) (Z.max h w)
  ∧ (h ≤ w → shape_is img h w)
  ∧ (w < h → shape_is img w h).
Proof.
  unfold calc_synthetic_flat.
  destruct (fill_flat _ _ _) as [st|] eqn:Hfill; [|done]. simpl. intros Hto.
  apply fill_flat_inv in Hfill as [Hshape _].
  pose proof (to_16bit_shape _ _ _ _ Hshape Hto) as Himg.
  split; [done|]. split; intros Hle.
  - by rewrite Z.min_l, Z.max_r in Himg by lia.
  - by rewrite Z.min_r, Z.max_l in Himg by lia.
Qed.


End flat_facts.



Lemma flat_shape_is_sorted_witness :
  shape_is [[65535; 65535; 65535; 65535; 0]; [65535; 65535; 65535; 65535; 0];
            [65535; 65535; 65535; 65535; 0]; [65535; 65535; 65535; 65535; 0];
            [0; 0; 0; 0; 0]] 5 5.
Proof.
  refine (proj1 (flat_shape_is_sorted flat_profile false 5 5 _ _)).
  vm_compute. reflexivity.
Defined.



(** The run on a requested size of (6, 4). *)
Lemma falling_flat_6_4 :
  calc_synthetic_flat falling_profile false (6, 4)
  = Some [[45213; 52682; 56447; 56447; 52682; 45213];
          [47359; 56447; 65535; 65535; 56447; 47359];
          [47359; 56447; 65535; 65535; 56447; 47359];
          [45213; 52682; 56447; 56447; 52682; 45213]].
Proof. vm_compute. reflexivity. Qed.

(** C5, the counterexample: for the requested size (6, 4) the array
    returned has 4 rows of 6 entries, not 6 rows of 4. *)
Lemma flat_shape_transposed :
  (∃ img, calc_synthetic_flat falling_profile false (6, 4) = Some img
          ∧ shape0 img = 4 ∧ shape1 img = 6)
  ∧ ¬ shape_as_requested falling_profile false (6, 4).
Proof.
  split.
  - eexists. split; [exact falling_flat_6_4|]. split; reflexivity.
  - intros Hclaim. destruct (Hclaim _ falling_flat_6_4) as [Hrows _].
    vm_compute in Hrows. discriminate.
Qed.

(** ** HistogramBuilder *)

Section indexed.
Context {A B : Type}.

(** A [mapM] whose function succeeds everywhere, read by index. *)
Lemma mapM_indexed (f : A → option B) (g : Z → B) (l : list A) (m : Z) :
  (∀ (k : nat) x, l !! k = Some x → f x = Some (g (m + Z.of_nat k))) →
  mapM f l = Some (g <$> seqZ m (Z.of_nat (length l))).
Proof.
  revert m. induction l as [|x l IH]; intros m Hf; [done|].
  change (mapM f (x :: l)) with (y ← f x; k ← mapM f l; mret (y :: k)).
  rewrite (Hf 0%nat x eq_refl). simpl.
  rewrite (IH (m + 1)).
  - simpl. rewrite (seqZ_cons m) by lia. simpl.
    rewrite Z.add_0_r. repeat f_equal; lia.
  - intros k y Hk. rewrite (Hf (S k) y Hk). f_equal. f_equal. lia.
Qed.

End indexed.

Section arrays4.
Context {A : Type}.

Lemma rectangular_array3 (image : list (list (list A))) (colors : Z) :
  rectangular image colors → array3 image (shape0 image) (shape1 image) colors.
Proof.
  intros Hrect. unfold rectangular in Hrect. split; [split; [done|]|].
  - eapply Forall_impl; [exact Hrect|]. by intros row [Hlen _].
  - eapply Forall_impl; [exact Hrect|]. by intros row [_ Hpx].
Qed.

Lemma array3_get2 (a : list (list (list A))) (rows cols colors i j : Z) :
  array3 a rows cols colors → 0 ≤ i < rows → 0 ≤ j < cols →
  ∃ row px, a !! Z.to_nat i = Some row ∧ row !! Z.to_nat j = Some px
            ∧ get2 a i j = Some px ∧ shape0 px = colors.
Proof.
  intros [[Hrows Hcols] Hpx] Hi Hj. unfold shape0 in *.
  destruct (lookup_lt_is_Some_2 a (Z.to_nat i)) as [row Hrow]; [lia|].
  rewrite Forall_forall in Hcols.
  pose proof (Hcols row (list_elem_of_lookup_2 _ _ _ Hrow)) as Hlen.
  destruct (lookup_lt_is_Some_2 row (Z.to_nat j)) as [px Hp]; [lia|].
  rewrite Forall_forall in Hpx.
  pose proof (Hpx row (list_elem_of_lookup_2 _ _ _ Hrow)) as Hrowpx.
  rewrite Forall_forall in Hrowpx.
  exists row, px. repeat split; try done.
  - unfold get2. rewrite get1_inrange by lia. rewrite Hrow. simpl.
    by rewrite get1_inrange by lia.
  - apply Hrowpx. by eapply list_elem_of_lookup_2.
Qed.

Lemma array3_get3 (a : list (list (list A))) (rows cols colors i j c : Z) :
  array3 a rows cols colors → 0 ≤ i < rows → 0 ≤ j < cols → 0 ≤ c < colors →
  ∃ px v, get2 a i j = Some px ∧ px !! Z.to_nat c = Some v
          ∧ get3 a i j c = Some v.
Proof.
  intros Ha Hi Hj Hc.
  destruct (array3_get2 a rows cols colors i j Ha Hi Hj) as (row & px & _ & _ & Hpx & Hlen).
  unfold shape0 in Hlen.
  destruct (lookup_lt_is_Some_2 px (Z.to_nat c)) as [v Hv]; [lia|].
  exists px, v. repeat split; try done.
  unfold get3. rewrite Hpx. simpl. by rewrite get1_inrange by lia.
Qed.

(** An assignment [a[i', j', c'] = v] with plain indices in range. *)
Lemma set3_spec (a : list (list (list A))) (rows cols colors i' j' c' : Z) (v : A) :
  array3 a rows cols colors →
  0 ≤ i' < rows → 0 ≤ j' < cols → 0 ≤ c' < colors →
  ∃ a', set3 a i' j' c' v = Some a' ∧ array3 a' rows cols colors
    ∧ ∀ i j c, 0 ≤ i < rows → 0 ≤ j < cols → 0 ≤ c < colors →
        get3 a' i j c
        = if decide (i = i' ∧ j = j' ∧ c = c') then Some v else get3 a i j c.
Proof.
  intros Ha Hi' Hj' Hc'.
  destruct (array3_get2 a rows cols colors i' j' Ha Hi' Hj')
    as (row & px & Hrow & Hp & Hpx & Hlen).
  unfold shape0 in Hlen. destruct Ha as [Hshape Hpxs].
  unfold set3. rewrite Hpx. simpl. rewrite set1_inrange by lia. simpl.
  destruct (set2 a i' j' (<[Z.to_nat c' := v]> px)) as [a'|] eqn:Hset.
  - destruct (set2_spec _ _ _ _ _ _ _ Hshape (proj1 Hi') (proj1 Hj') Hset)
      as (_ & _ & Hshape' & Hget).
    exists a'. split; [done|]. split; [split; [done|]|].
    + unfold set2 in Hset. rewrite get1_inrange in Hset by (destruct Hshape; unfold shape0 in *; lia).
      rewrite Hrow in Hset. simpl in Hset.
      rewrite set1_inrange in Hset.
      2:{ destruct Hshape as [_ Hcols]. rewrite Forall_forall in Hcols.
          pose proof (Hcols row (list_elem_of_lookup_2 _ _ _ Hrow)). unfold shape0 in *. lia. }
      simpl in Hset. rewrite set1_inrange in Hset by (destruct Hshape; unfold shape0 in *; lia).
      injection Hset as <-.
      apply Forall_insert; [done|]. apply Forall_insert.
      * rewrite Forall_forall in Hpxs. apply (Hpxs row). by eapply list_elem_of_lookup_2.
      * unfold shape0. by rewrite length_insert.
    + intros i j c Hi Hj Hc. unfold get3. rewrite Hget by done.
      case_decide as Hij.
      * destruct Hij as [-> ->]. simpl.
        rewrite get1_inrange by (rewrite length_insert; lia).
        destruct (decide (c = c')) as [->|Hne].
        -- rewrite list_lookup_insert_eq by lia. by rewrite decide_True.
        -- rewrite list_lookup_insert_ne by lia. rewrite decide_False by tauto.
           rewrite Hpx. simpl. by rewrite get1_inrange by lia.
      * rewrite decide_False by tauto. done.
  - exfalso. unfold set2 in Hset.
    rewrite get1_inrange in Hset by (destruct Hshape; unfold shape0 in *; lia).
    rewrite Hrow in Hset. simpl in Hset.
    rewrite set1_inrange in Hset.
    2:{ destruct Hshape as [_ Hcols]. rewrite Forall_forall in Hcols.
        pose proof (Hcols row (list_elem_of_lookup_2 _ _ _ Hrow)). unfold shape0 in *. lia. }
    simpl in Hset. rewrite set1_inrange in Hset by (destruct Hshape; unfold shape0 in *; lia).
    done.
Qed.

End arrays4.

Section masking.
Context {F : Type} `{Float64 F}.

Lemma mask_pixel_spec (im0 : list (list (list F))) (height width c i j : Z)
    (done : list (Z * Z)) (st : list (list (list F))) :
  masked_upto im0 height width c done st →
  0 ≤ i < height → 0 ≤ j < width → 0 ≤ c < 3 →
  ∃ st', mask_pixel height width c i j st = Some st'
         ∧ masked_upto im0 height width c (done ++ [(i, j)]) st'.
Proof.
  intros [Harr Hget] Hi Hj Hc. unfold mask_pixel.
  destruct (outside_circle i j height width) eqn:Hout.
  - destruct (set3_spec st height width 3 i j c f_nan Harr Hi Hj Hc)
      as (st' & Hset & Harr' & Hget').
    exists st'. split; [done|]. split; [done|].
    intros i0 j0 c0 Hi0 Hj0 Hc0. rewrite Hget' by done. rewrite Hget by done.
    destruct (decide (i0 = i ∧ j0 = j ∧ c0 = c)) as [(-> & -> & ->)|Hne].
    + rewrite decide_True; [done|]. split; [done|]. split; [|done].
      apply elem_of_app. right. by apply list_elem_of_singleton.
    + case_decide as Hd; case_decide as Hd'; try done.
      * exfalso. apply Hd'. destruct Hd as (? & ? & ?). split; [done|]. split; [|done].
        apply elem_of_app. by left.
      * exfalso. destruct Hd' as (-> & [Hin|Hin%list_elem_of_singleton]%elem_of_app & ?).
        -- by apply Hd.
        -- injection Hin as -> ->. by apply Hne.
  - exists st. split; [done|]. split; [done|].
    intros i0 j0 c0 Hi0 Hj0 Hc0. rewrite Hget by done.
    case_decide as Hd; case_decide as Hd'; try done.
    + exfalso. apply Hd'. destruct Hd as (? & ? & ?). split; [done|]. split; [|done].
      apply elem_of_app. by left.
    + exfalso. destruct Hd' as (-> & [Hin|Hin%list_elem_of_singleton]%elem_of_app & Ho).
      * by apply Hd.
      * injection Hin as -> ->. congruence.
Qed.

Lemma mask_row_spec (im0 : list (list (list F))) (height width c i : Z)
    (js : list Z) (done : list (Z * Z)) (st : list (list (list F))) :
  masked_upto im0 height width c done st →
  0 ≤ i < height → 0 ≤ c < 3 → (∀ j, j ∈ js → 0 ≤ j < width) →
  ∃ st', for_each (λ j im, mask_pixel height width c i j im) js st = Some st'
         ∧ masked_upto im0 height width c (done ++ ((λ j, (i, j)) <$> js)) st'.
Proof.
  intros Hst Hi Hc. revert done st Hst.
  induction js as [|j js IH]; intros done st Hst Hjs; simpl.
  - exists st. by rewrite app_nil_r.
  - destruct (mask_pixel_spec im0 height width c i j done st) as (st1 & -> & Hst1);
      try done; [apply Hjs; by left|].
    simpl. destruct (IH (done ++ [(i, j)]) st1) as (st' & Hrun & Hst'); [done| |].
    + intros j' Hj'. apply Hjs. by right.
    + exists st'. split; [done|]. by rewrite <- app_assoc in Hst'.
Qed.

Lemma mask_rows_spec (im0 : list (list (list F))) (height width c : Z)
    (idx : list Z) (done : list (Z * Z)) (st : list (list (list F))) :
  masked_upto im0 height width c done st →
  0 ≤ c < 3 → (∀ i, i ∈ idx → 0 ≤ i < height) →
  ∃ st', for_each (λ i im, for_each (λ j im, mask_pixel height width c i j im)
                                    (range width) im) idx st = Some st'
         ∧ masked_upto im0 height width c
             (done ++ mjoin ((λ i, (λ j, (i, j)) <$> range width) <$> idx)) st'.
Proof.
  intros Hst Hc. revert done st Hst.
  induction idx as [|i idx IH]; intros done st Hst His; simpl.
  - exists st. by rewrite app_nil_r.
  - destruct (mask_row_spec im0 height width c i (range width) done st)
      as (st1 & -> & Hst1); try done.
    { apply His. by left. }
    { intros j. apply elem_of_range. }
    simpl. destruct (IH _ st1 Hst1) as (st' & Hrun & Hst').
    + intros i' Hi'. apply His. by right.
    + exists st'. split; [done|]. by rewrite <- app_assoc in Hst'.
Qed.

Lemma elem_of_pixels (height width i j : Z) :
  (i, j) ∈ pixels height width ↔ 0 ≤ i < height ∧ 0 ≤ j < width.
Proof.
  unfold pixels. rewrite list_elem_of_join. split.
  - intros (row & Hin & Hrow). apply list_elem_of_fmap in Hrow as (i' & -> & Hi').
    apply list_elem_of_fmap in Hin as (j' & [= -> ->] & Hj').
    by rewrite !elem_of_range in *.
  - intros [Hi Hj]. exists ((λ j, (i, j)) <$> range width). split.
    + apply list_elem_of_fmap. exists j. by rewrite elem_of_range.
    + apply list_elem_of_fmap. exists i. by rewrite elem_of_range.
Qed.

(** The masking loop of channel [c] sends the samples of that channel
    outside the circle to NaN and keeps everything else. *)
Lemma mask_channel_spec (st : list (list (list F))) (height width c : Z) :
  array3 st height width 3 → shape1 st = width → 0 ≤ c < 3 →
  ∃ st', mask_channel height width c st = Some st'
    ∧ array3 st' height width 3
    ∧ ∀ i j c', 0 ≤ i < height → 0 ≤ j < width → 0 ≤ c' < 3 →
        get3 st' i j c'
        = if decide (c' = c ∧ outside_circle i j height width = true)
          then Some f_nan else get3 st i j c'.
Proof.
  intros Harr Hw Hc. unfold mask_channel. rewrite Hw.
  assert (shape0 st = height) as -> by (by destruct Harr as [[? _] _]).
  destruct (mask_rows_spec st height width c (range height) [] st)
    as (st' & Hrun & Harr' & Hget); try done.
  - split; [done|]. intros i j c' Hi Hj Hc'.
    rewrite decide_False; [done|]. intros (_ & Hin & _). by apply elem_of_nil in Hin.
  - intros i. apply elem_of_range.
  - exists st'. split; [done|]. split; [done|].
    intros i j c' Hi Hj Hc'. rewrite Hget by done.
    case_decide as Hd; case_decide as Hd'; try done.
    + exfalso. apply Hd'. tauto.
    + exfalso. apply Hd. destruct Hd'. split; [done|]. split; [|done].
      simpl. by apply elem_of_pixels.
Qed.

End masking.

Section planes.
Context {F : Type} `{Float64 F}.

Lemma fmap_mjoin {A B} (f : A → B) (ls : list (list A)) :
  f <$> mjoin ls = mjoin ((λ l, f <$> l) <$> ls).
Proof.
  induction ls as [|l ls IH]; [done|]. simpl. by rewrite fmap_app, IH.
Qed.

Lemma mapM_total_fmap {A B} (f : A → option B) (g : A → B) (l : list A) :
  Forall (λ x, f x = Some (g x)) l → mapM f l = Some (g <$> l).
Proof.
  induction 1 as [|x l Hx Hl IH]; [done|].
  change (mapM f (x :: l)) with (y ← f x; k ← mapM f l; mret (y :: k)).
  by rewrite Hx, IH.
Qed.

(** [plane] lists the samples of a channel in the order of [pixels]. *)
Lemma plane_spec (st : list (list (list F))) (height width colors c : Z) :
  array3 st height width colors → 0 ≤ c < colors →
  plane st c
  = Some ((λ p, default f_nan (get3 st p.1 p.2 c)) <$> pixels height width).
Proof.
  intros Harr Hc. unfold plane, pixels.
  rewrite (mapM_indexed _
             (λ i, (λ j, default f_nan (get3 st i j c)) <$> range width) st 0).
  - simpl. f_equal. rewrite fmap_mjoin. f_equal.
    assert (Z.of_nat (length st) = height) as -> by (by destruct Harr as [[? _] _]).
    rewrite <- list_fmap_compose. apply list_fmap_ext. intros _ i _. simpl.
    rewrite <- list_fmap_compose. done.
  - intros k row Hrow.
    assert (Z.of_nat (length row) = width) as Hlen.
    { destruct Harr as [[_ Hcols] _]. rewrite Forall_forall in Hcols.
      apply (Hcols row). by eapply list_elem_of_lookup_2. }
    rewrite (mapM_indexed _ (λ j, default f_nan (get3 st (0 + Z.of_nat k) j c)) row 0).
    + by rewrite Hlen.
    + intros k' px Hpx. rewrite !Z.add_0_l.
      assert (0 ≤ Z.of_nat k < height).
      { apply lookup_lt_Some in Hrow. destruct Harr as [[? _] _]. unfold shape0 in *. lia. }
      assert (0 ≤ Z.of_nat k' < width) by (apply lookup_lt_Some in Hpx; lia).
      destruct (array3_get3 st height width colors (Z.of_nat k) (Z.of_nat k') c)
        as (px' & v & Hget2 & Hv & Hget3); try done.
      rewrite Hget3. simpl.
      unfold get2 in Hget2. rewrite (get1_nat _ _ _ Hrow) in Hget2. simpl in Hget2.
      rewrite (get1_nat _ _ _ Hpx) in Hget2. injection Hget2 as ->.
      unfold get3 in Hget3. unfold get2 in Hget3.
      rewrite (get1_nat _ _ _ Hrow) in Hget3. simpl in Hget3.
      rewrite (get1_nat _ _ _ Hpx) in Hget3. done.
Qed.

Lemma count_if_fmap {A B} (f : A → B) (p : B → bool) (l : list A) :
  count_if p (f <$> l) = count_if (λ x, p (f x)) l.
Proof.
  unfold count_if. f_equal. induction l as [|x l IH]; [done|].
  rewrite fmap_cons, !filter_cons. simpl.
  destruct (decide (p (f x) = true)); simpl; by rewrite IH.
Qed.

Lemma count_if_ext {A} (p q : A → bool) (l : list A) :
  (∀ x, x ∈ l → p x = q x) → count_if p l = count_if q l.
Proof.
  intros Hpq. unfold count_if. f_equal. induction l as [|x l IH]; [done|].
  rewrite !filter_cons. rewrite (Hpq x) by (by left).
  destruct (decide (q x = true)); simpl; rewrite IH; try done;
    intros y Hy; apply Hpq; by right.
Qed.

Lemma count_if_app {A} (p : A → bool) (l1 l2 : list A) :
  count_if p (l1 ++ l2) = count_if p l1 + count_if p l2.
Proof. unfold count_if. rewrite filter_app, length_app. lia. Qed.

(** Two tests that never hold together split the count of their
    disjunction. *)
Lemma count_if_split {A} (p q r : A → bool) (l : list A) :
  (∀ x, r x = p x || q x) → (∀ x, p x && q x = false) →
  count_if r l = count_if p l + count_if q l.
Proof.
  intros Hr Hpq. unfold count_if. induction l as [|x l IH]; [done|].
  rewrite !filter_cons. specialize (Hr x). specialize (Hpq x).
  destruct (p x), (q x); simpl in *; try done; rewrite Hr;
    repeat (destruct (decide _); try done); simpl; lia.
Qed.

(** [merge_green] keeps channel 0 and moves channel 3 to channel 2. *)
Lemma merge_green_spec (image : list (list (list F))) :
  rectangular image 4 →
  ∃ image_rgb, merge_green image = Some image_rgb
    ∧ array3 image_rgb (shape0 image) (shape1 image) 3
    ∧ shape0 image_rgb = shape0 image ∧ shape1 image_rgb = shape1 image
    ∧ ∀ i j, 0 ≤ i < shape0 image → 0 ≤ j < shape1 image →
        get3 image_rgb i j 0 = get3 image i j 0
        ∧ get3 image_rgb i j 2 = get3 image i j 3.
Proof.
  intros Hrect.
  set (g := λ px : list F,
         [default f_nan (px !! 0%nat);
          ((default f_nan (px !! 1%nat) + default f_nan (px !! 2%nat)) / f_of_Z 2)%F;
          default f_nan (px !! 3%nat)]).
  assert (merge_green image = Some ((λ row : list (list F), g <$> row) <$> image)) as Hmerge.
  { unfold merge_green. apply mapM_total_fmap.
    unfold rectangular in Hrect. eapply Forall_impl; [exact Hrect|].
    intros row [_ Hpx]. apply mapM_total_fmap.
    eapply Forall_impl; [exact Hpx|]. intros px Hlen. simpl in Hlen.
    destruct px as [|r [|g1 [|g2 [|b [|x px]]]]]; simpl in Hlen; try lia.
    reflexivity. }
  exists ((λ row : list (list F), g <$> row) <$> image). split; [done|].
  assert (shape1 ((λ row : list (list F), g <$> row) <$> image) = shape1 image) as Hs1.
  { unfold shape1. destruct image as [|row image]; [done|]. simpl.
    by rewrite length_fmap. }
  pose proof (rectangular_array3 image 4 Hrect) as [[_ Hcols] Hpxs].
  split; [|split; [|split; [done|]]].
  - split; [split|].
    + unfold shape0. by rewrite length_fmap.
    + rewrite Forall_fmap. eapply Forall_impl; [exact Hcols|].
      intros row Hrow. simpl. unfold shape0 in *. by rewrite length_fmap.
    + rewrite Forall_fmap. eapply Forall_impl; [exact Hpxs|].
      intros row Hrow. simpl. rewrite Forall_fmap.
      eapply Forall_impl; [exact Hrow|]. by intros px _.
  - unfold shape0. by rewrite length_fmap.
  - intros i j Hi Hj.
    destruct (get3_inrange image 4 i j 0) as (row & px & v0 & Hrow & Hpx & Hv0 & E0);
      try done.
    destruct (get3_inrange image 4 i j 3) as (row' & px' & v3 & Hrow' & Hpx' & Hv3 & E3);
      try done.
    simplify_eq. rewrite E0, E3.
    assert (get2 ((λ row : list (list F), g <$> row) <$> image) i j = Some (g px)) as Hget2.
    { unfold get2. rewrite get1_inrange by (rewrite length_fmap; unfold shape0 in Hi; lia).
      rewrite list_lookup_fmap, Hrow. simpl.
      rewrite get1_inrange.
      - by rewrite list_lookup_fmap, Hpx.
      - rewrite length_fmap. apply lookup_lt_Some in Hpx. lia. }
    unfold get3. rewrite Hget2. simpl.
    change (Z.to_nat 0) with 0%nat in Hv0. change (Z.to_nat 3) with 3%nat in Hv3.
    split; unfold g, get1; simpl; by rewrite ?Hv0, ?Hv3.
Qed.

End planes.

Section histogram_totals.

Lemma within_split (lo b hi x : Q) :
  (lo <= b)%Q → (b <= hi)%Q →
  Qle_bool lo x && Qle_bool x hi
  = (Qle_bool lo x && Qlt_bool x b) || (Qle_bool b x && Qle_bool x hi)
  ∧ (Qle_bool lo x && Qlt_bool x b) && (Qle_bool b x && Qle_bool x hi) = false.
Proof.
  intros Hlo Hhi.
  destruct (Qle_bool lo x) eqn:E1; destruct (Qlt_bool x b) eqn:E2;
    destruct (Qle_bool b x) eqn:E3; destruct (Qle_bool x hi) eqn:E4; simpl;
    split; try reflexivity; exfalso;
    rewrite ?Qle_bool_iff, ?Qlt_bool_true, ?Qlt_bool_false in *;
    repeat match goal with
           | E : Qle_bool _ _ = false |- _ =>
               apply (f_equal negb) in E; simpl in E;
               change (negb (Qle_bool ?a ?c)) with (Qlt_bool c a) in E;
               apply Qlt_bool_true in E
           end; lra.
Qed.

(** The bins of ascending edges share out the samples that lie between
    the first and the last edge. *)
Lemma histogram_total (vals rest : list xreal) (lo : Q) :
  ascendingb (Some lo :: rest) = true → rest ≠ [] →
  ∃ hi, last rest = Some (Some hi) ∧ (lo <= hi)%Q
    ∧ total (np_histogram vals (Some lo :: rest))
      = count_if (λ v, (Some lo <=? v)%F && (v <=? Some hi)%F) vals.
Proof.
  revert lo. induction rest as [|x rest IH]; intros lo Hasc Hne; [done|].
  destruct x as [b|]; [|done].
  destruct rest as [|y rest].
  - simpl in Hasc. rewrite andb_true_r in Hasc. apply Qle_bool_iff in Hasc.
    exists b. split; [done|]. split; [done|]. simpl. rewrite Z.add_0_r.
    apply count_if_ext. intros v _. done.
  - change (ascendingb (Some lo :: Some b :: y :: rest))
      with (Qle_bool lo b && ascendingb (Some b :: y :: rest)) in Hasc.
    apply andb_true_iff in Hasc as [Hlo Hasc]. apply Qle_bool_iff in Hlo.
    destruct (IH b Hasc) as (hi & Hlast & Hhi & Htotal); [done|].
    exists hi. split; [done|]. split; [by eapply Qle_trans|].
    change (np_histogram vals (Some lo :: Some b :: y :: rest))
      with (count_if (in_bin (Some lo) (Some b) false) vals
              :: np_histogram vals (Some b :: y :: rest)).
    change (total (?c :: ?l)) with (c + total l). rewrite Htotal.
    symmetry. apply count_if_split.
    + intros [x|]; [|done]. exact (proj1 (within_split lo b hi x Hlo Hhi)).
    + intros [x|]; [|done]. exact (proj2 (within_split lo b hi x Hlo Hhi)).
Qed.

Lemma histogram_edges_bounds :
  ∃ lo rest, histogram_edges (F := xreal) = Some lo :: rest
    ∧ (lo == 0)%Q ∧ rest ≠ []
    ∧ last rest = Some (Some (inject_Z (2 ^ 12)))
    ∧ ascendingb (Some lo :: rest) = true.
Proof.
  eexists. eexists. split; [vm_compute; reflexivity|].
  split; [reflexivity|]. split; [done|]. split; vm_compute; reflexivity.
Qed.

(** The counts of a histogram over the edges of [calc_histograms] sum
    to the number of samples within the edges. *)
Lemma histogram_counts_total (vals : list xreal) :
  total (np_histogram vals histogram_edges) = count_if within_edges vals.
Proof.
  destruct histogram_edges_bounds as (lo & rest & -> & Hlo & Hne & Hlast & Hasc).
  destruct (histogram_total vals rest lo Hasc Hne) as (hi & Hlast' & _ & ->).
  pose proof (eq_trans (eq_sym Hlast) Hlast') as [= <-].
  apply count_if_ext. intros [x|] _; [|done].
  unfold within_edges. simpl. f_equal.
  apply Qleb_comp; [done|reflexivity].
Qed.

End histogram_totals.

Lemma array3_shape1 {A} (a : list (list (list A))) (rows cols colors : Z) :
  array3 a rows cols colors → (rows = 0 → cols = 0) → shape1 a = cols.
Proof.
  intros [[Hrows Hcols] _] Hzero. unfold shape1, shape0 in *.
  destruct a as [|row a]; simpl in *; [symmetry; by apply Hzero|].
  by inversion Hcols.
Qed.

Lemma histogram_channel_plain {F} `{Float64 F} (height width c : Z)
    (im im' : list (list (list F))) (data : list (list Z)) (vals : list F) :
  c ≠ 1 → mask_channel height width c im = Some im' → plane im' c = Some vals →
  histogram_channel true height width c (im, data)
  = Some (im', data ++ [np_histogram vals histogram_edges]).
Proof.
  intros Hc Hm Hp. unfold histogram_channel. rewrite Hm. simpl.
  destruct (Z.eqb_spec c 1); [done|]. by rewrite Hp.
Qed.

Lemma histogram_channel_green {F} `{Float64 F} (height width : Z)
    (im im' : list (list (list F))) (data : list (list Z)) (p1 p2 : list F) :
  mask_channel height width 1 im = Some im' →
  plane im' 1 = Some p1 → plane im' 2 = Some p2 →
  histogram_channel true height width 1 (im, data)
  = Some (im', data ++ [np_histogram (p1 ++ p2) histogram_edges]).
Proof.
  intros Hm Hp1 Hp2. unfold histogram_channel. rewrite Hm. simpl.
  by rewrite Hp1, Hp2.
Qed.

(** C8 as amended. With the circular restriction, in exact arithmetic
    and for a four-channel image: [calc_histograms] returns its table,
    and the counts of the R column, like those of the B column, sum to
    the number of pixels whose distance from the centre, as
    [dist_from_center] computes it, exceeds neither height / 2 nor
    width / 2 and whose sample of that channel lies in [0, 4096].
    Nothing is stated of the green column. *)
Theorem circular_histogram_counts (image : list (list (list xreal))) :
  rectangular image 4 →
  ∃ edges counts_R counts_G counts_B,
    calc_histograms image true = Some (edges, [counts_R; counts_G; counts_B])
    ∧ total counts_R = unmasked_in_range image 0
    ∧ total counts_B = unmasked_in_range image 3.
Proof.
  intros Hrect.
  destruct (merge_green_spec image Hrect)
    as (rgb & Hmerge & Harr & Hs0 & Hs1 & Hrgb).
  set (height := shape0 image) in *. set (width := shape1 image) in *.
  assert (height = 0 → width = 0) as Hzero.
  { unfold height, width, shape0, shape1. by destruct image. }
  destruct (mask_channel_spec rgb height width 0 Harr Hs1) as (im0 & Hm0 & Harr0 & Hget0);
    [lia|].
  destruct (mask_channel_spec im0 height width 1 Harr0) as (im1 & Hm1 & Harr1 & Hget1);
    [by eapply array3_shape1|lia|].
  destruct (mask_channel_spec im1 height width 2 Harr1) as (im2 & Hm2 & Harr2 & Hget2);
    [by eapply array3_shape1|lia|].
  pose proof (plane_spec im0 height width 3 0 Harr0 ltac:(lia)) as Hp0.
  pose proof (plane_spec im1 height width 3 1 Harr1 ltac:(lia)) as Hp1.
  pose proof (plane_spec im1 height width 3 2 Harr1 ltac:(lia)) as Hp12.
  pose proof (plane_spec im2 height width 3 2 Harr2 ltac:(lia)) as Hp2.
  eexists _, _, _, _. split; [|split].
  - unfold calc_histograms. rewrite Hmerge. cbn [mbind option_bind].
    rewrite Hs0, Hs1. fold height width.
    change (range 3) with [0; 1; 2]. cbn [for_each].
    rewrite (histogram_channel_plain height width 0 rgb im0 [] _ ltac:(lia) Hm0 Hp0).
    cbn [mbind option_bind].
    rewrite (histogram_channel_green height width im0 im1 _ _ _ Hm1 Hp1 Hp12).
    cbn [mbind option_bind].
    rewrite (histogram_channel_plain height width 2 im1 im2 _ _ ltac:(lia) Hm2 Hp2).
    cbn [mbind option_bind]. reflexivity.
  - rewrite histogram_counts_total, count_if_fmap. unfold unmasked_in_range.
    fold height width. apply count_if_ext. intros [i j] [Hi Hj]%elem_of_pixels. simpl.
    rewrite Hget0 by lia. destruct (Hrgb i j Hi Hj) as [-> _].
    destruct (outside_circle i j height width) eqn:Hout.
    + rewrite decide_True by done. done.
    + rewrite decide_False by (intros [_ ?]; done). done.
  - rewrite histogram_counts_total, count_if_fmap. unfold unmasked_in_range.
    fold height width. apply count_if_ext. intros [i j] [Hi Hj]%elem_of_pixels. simpl.
    rewrite Hget2 by lia. rewrite Hget1 by lia. rewrite Hget0 by lia.
    destruct (Hrgb i j Hi Hj) as [_ ->].
    rewrite (decide_False (P := 2 = 1 ∧ _)) by (intros [? _]; lia).
    rewrite (decide_False (P := 2 = 0 ∧ _)) by (intros [? _]; lia).
    destruct (outside_circle i j height width) eqn:Hout.
    + rewrite decide_True by done. done.
    + rewrite decide_False by (intros [_ ?]; done). done.
Qed.

Lemma circular_histogram_counts_witness :
  ∃ edges counts_R counts_G counts_B,
    calc_histograms grey_ximage true = Some (edges, [counts_R; counts_G; counts_B])
    ∧ total counts_R = unmasked_in_range grey_ximage 0
    ∧ total counts_B = unmasked_in_range grey_ximage 3.
Proof.
  refine (circular_histogram_counts grey_ximage _).
  exact (rectangular_replicate 2 2 [Some 100%Q; Some 100%Q; Some 100%Q; Some 100%Q]).
Defined.

(** The sums of the three count columns for the 2x2 image of samples
    100, on binary64. *)
Lemma grey_histogram_totals :
  histogram_totals grey_image true = Some [3; 7; 3].
Proof. vm_compute. reflexivity. Qed.

(** C8, the counterexample: for the 2x2 image whose samples are all 100
    the R and B columns sum to 3 and the green column to 7, more than
    the image has pixels, while a single pixel lies strictly inside the
    inscribed circle. *)
Lemma histogram_counts_not_inscribed :
  (histogram_totals grey_image true = Some [3; 7; 3]
   ∧ count_if (λ p, strictly_inside p.1 p.2 2 2) (pixels 2 2) = 1)
  ∧ ¬ counts_pixels_inside grey_image.
Proof.
  split; [split; [exact grey_histogram_totals|reflexivity]|].
  intros Hclaim. pose proof grey_histogram_totals as Htot.
  unfold histogram_totals in Htot.
  destruct (calc_histograms grey_image true) as [[edges columns]|] eqn:Hrun;
    [|discriminate].
  injection Htot as Htot.
  destruct columns as [|counts columns]; [discriminate|].
  injection Htot as Hc _.
  specialize (Hclaim edges (counts :: columns) counts Hrun (list_elem_of_here _ _)).
  rewrite Hc in Hclaim. vm_compute in Hclaim. discriminate.
Qed.

(** ** GradientCorrector *)

Section gradient_facts.
Context {F : Type} `{Float64 F}.
Variable sigmaclip : list F → F → F → list F.










End gradient_facts.

Section gradient_correct.
Context {F : Type} `{Float64 F}.
Variable sigmaclip : list F → F → F → list F.





End gradient_correct.

